(** * Farm-advisor: the query-matching engine of [backend/models/knowledge_base.py]

    A shallow embedding of the [KnowledgeBase] class: text normalisation,
    the keyword index, the keyword pass, the fuzzy pass built on
    [difflib.SequenceMatcher], and the response resolver, followed by the
    properties of the matching engine.

    Python strings are sequences of Unicode code points and are modelled as
    [list N].  The Unicode character database consulted by [unicodedata],
    [re] and [str.lower] is a parameter of the development (class
    [UnicodeData]); a finite fragment of it ([ucd_fragment]) is given
    concretely so that the engine can be run on the built-in knowledge
    base. *)

From Stdlib Require Import QArith.
From stdpp Require Import base option list numbers strings gmap.

Local Open Scope N_scope.

(** ** Python text *)

(** A Python [str]: a sequence of code points. *)
Abbreviation str := (list N) (only parsing).

Definition SPACE : N := 0x20.
Definition LOW_LINE : N := 0x5F.
Definition CAPITAL_SIGMA : N := 0x3A3.
Definition SMALL_SIGMA : N := 0x3C3.
Definition FINAL_SIGMA : N := 0x3C2.

(** Source literals are UTF-8; [py "..."] is the [str] a Python literal
    with those bytes denotes. *)
Definition bytes_of (s : string) : list N :=
  map (fun b => N.of_nat (Ascii.nat_of_ascii b)) (String.list_ascii_of_string s).

Fixpoint utf8_decode (bs : list N) : str :=
  match bs with
  | [] => []
  | b0 :: r0 =>
    if b0 <? 0x80 then b0 :: utf8_decode r0 else
    match r0 with
    | [] => [b0]
    | b1 :: r1 =>
      if b0 <? 0xE0 then ((b0 - 0xC0) * 64 + (b1 - 0x80)) :: utf8_decode r1 else
      match r1 with
      | [] => [b0]
      | b2 :: r2 =>
        if b0 <? 0xF0
        then ((b0 - 0xE0) * 4096 + (b1 - 0x80) * 64 + (b2 - 0x80)) :: utf8_decode r2
        else
        match r2 with
        | [] => [b0]
        | b3 :: r3 =>
          ((b0 - 0xF0) * 262144 + (b1 - 0x80) * 4096 + (b2 - 0x80) * 64 + (b3 - 0x80))
            :: utf8_decode r3
        end
      end
    end
  end.

Definition py (s : string) : str := utf8_decode (bytes_of s).
Arguments py : simpl never.

(** ** The Unicode character database

    What [unicodedata.normalize], [unicodedata.combining], the [re] classes
    [\w] and [\s], [str.strip], [str.split] and [str.lower] read from the
    database. *)
Class UnicodeData := {
  (** full compatibility decomposition of one code point *)
  decomposition : N -> list N;
  (** canonical combining class, [unicodedata.combining] *)
  combining : N -> N;
  (** [str.isalnum] on one code point *)
  isalnum : N -> bool;
  (** [str.isspace] on one code point, also the class [\s] *)
  isspace : N -> bool;
  (** full lower-case mapping of one code point *)
  tolower_full : N -> list N;
  (** the properties Cased and Case_Ignorable *)
  iscased : N -> bool;
  iscase_ignorable : N -> bool
}.

Module PyStr.
Section with_ucd.
Context `{UnicodeData}.

(** The class [\w] of [re] on [str] patterns: alphanumerics and the
    underscore. *)
Definition isword (c : N) : bool := isalnum c || (c =? LOW_LINE).

(** [s.lstrip()], [s.rstrip()], [s.strip()] *)
Fixpoint lstrip (s : str) : str :=
  match s with
  | [] => []
  | c :: s' => if isspace c then lstrip s' else s
  end.

Definition rstrip (s : str) : str :=
  foldr (fun c acc => match acc with
                      | [] => if isspace c then [] else [c]
                      | _ => c :: acc
                      end) [] s.

Definition strip (s : str) : str := rstrip (lstrip s).

(** [s.split()]: the maximal runs of non-white-space characters. *)
Fixpoint split_from (cur : str) (s : str) : list str :=
  match s with
  | [] => match cur with [] => [] | _ => [cur] end
  | c :: s' =>
    if isspace c
    then match cur with [] => split_from [] s' | _ => cur :: split_from [] s' end
    else split_from (cur ++ [c]) s'
  end.

Definition split (s : str) : list str := split_from [] s.

(** [needle in hay] *)
Fixpoint startswith (hay needle : str) : bool :=
  match needle, hay with
  | [], _ => true
  | _ :: _, [] => false
  | x :: needle', y :: hay' => (x =? y) && startswith hay' needle'
  end.

Fixpoint contains (hay needle : str) : bool :=
  startswith hay needle ||
  match hay with
  | [] => false
  | _ :: hay' => contains hay' needle
  end.

(** [s.lower()].  Every code point is replaced by its full lower-case
    mapping, except U+03A3 whose image depends on the Final_Sigma
    context: it is preceded by a cased letter and not followed by one,
    case-ignorable characters being skipped on both sides. *)
Fixpoint skip_ignorable (s : str) : str :=
  match s with
  | [] => []
  | c :: s' => if iscase_ignorable c then skip_ignorable s' else s
  end.

Definition handle_capital_sigma (before_rev after : str) : N :=
  let preceded := match skip_ignorable before_rev with
                  | [] => false
                  | c :: _ => iscased c
                  end in
  let final_sigma := preceded && match skip_ignorable after with
                                 | [] => true
                                 | c :: _ => negb (iscased c)
                                 end in
  if final_sigma then FINAL_SIGMA else SMALL_SIGMA.

Definition lower_ucs4 (before_rev : str) (c : N) (after : str) : list N :=
  if c =? CAPITAL_SIGMA then [handle_capital_sigma before_rev after]
  else tolower_full c.

Fixpoint lower_from (before_rev : str) (s : str) : str :=
  match s with
  | [] => []
  | c :: after => lower_ucs4 before_rev c after ++ lower_from (c :: before_rev) after
  end.

Definition lower (s : str) : str := lower_from [] s.
End with_ucd.
End PyStr.

(** ** Text normalisation *)

Module Normalizer.
Import PyStr.
Section with_ucd.
Context `{UnicodeData}.

(** [unicodedata.normalize('NFKD', text)]: every code point is replaced
    by its full compatibility decomposition, then the canonical ordering
    algorithm sorts every run of combining marks by combining class,
    stably. *)
Fixpoint insert_mark (c : N) (s : str) : str :=
  match s with
  | [] => [c]
  | d :: s' =>
    if (0 <? combining d) && (combining d <? combining c)
    then d :: insert_mark c s'
    else c :: s
  end.

Definition canonical_order (s : str) : str := foldr insert_mark [] s.

Definition NFKD (s : str) : str := canonical_order (flat_map decomposition s).

(** [''.join(c for c in text if not unicodedata.combining(c))] *)
Definition strip_combining (s : str) : str :=
  filter (fun c => combining c = 0) s.

(** [re.sub(r'[^\w\s]', ' ', text)] *)
Definition sub_punctuation (s : str) : str :=
  map (fun c => if isword c || isspace c then c else SPACE) s.

(** [re.sub(r'\s+', ' ', text)]: every maximal run of white space
    becomes one space.  [in_run] tells that the previous character was
    white space too. *)
Fixpoint collapse_from (in_run : bool) (s : str) : str :=
  match s with
  | [] => []
  | c :: s' =>
    if isspace c
    then (if in_run then collapse_from true s' else SPACE :: collapse_from true s')
    else c :: collapse_from false s'
  end.

Definition collapse_spaces (s : str) : str := collapse_from false s.

(** [KnowledgeBase.normalize_text] *)
Definition normalize_text (text : str) : str :=
  let text := NFKD text in
  let text := strip_combining text in
  let text := sub_punctuation text in
  let text := strip (collapse_spaces text) in
  lower text.
End with_ucd.
End Normalizer.

(** ** [difflib.SequenceMatcher]

    [SequenceMatcher(None, a, b)]: no junk predicate, [autojunk] left on.
    Only what [ratio()] needs is modelled: the matching blocks found by
    [get_matching_blocks] before they are sorted and merged (neither step
    changes the sum of their sizes, which is all [ratio()] reads). *)

Module Difflib.
Section with_elements.
Context {A : Type} `{EqDecision A}.

(** [__chain_b]: [b2j[x]] lists the positions of [x] in [b], in increasing
    order; when [b] has 200 elements or more, the elements occurring more
    than [len(b) // 100 + 1] times are dropped as popular. *)
Fixpoint positions_from (j : nat) (x : A) (b : list A) : list nat :=
  match b with
  | [] => []
  | y :: b' =>
    if decide (x = y) then j :: positions_from (S j) x b'
    else positions_from (S j) x b'
  end.

Definition b2j (b : list A) (x : A) : list nat :=
  let idxs := positions_from 0 x b in
  let n := length b in
  if (200 <=? n)%nat && (n / 100 + 1 <? length idxs)%nat then [] else idxs.

(** State of [find_longest_match]: [besti, bestj, bestsize]. *)
Record Match := { m_a : nat; m_b : nat; m_size : nat }.

(** [j2len.get(j-1, 0)] *)
Definition j2len_get (j2len : gmap nat nat) (j : nat) : nat :=
  match j with
  | O => 0%nat
  | S j' => default 0%nat (j2len !! j')
  end.

(** The loop [for j in b2j.get(a[i], nothing)], with its [continue] and
    [break]. *)
Fixpoint scan_row (blo bhi i : nat) (j2len : gmap nat nat) (js : list nat)
    (st : Match * gmap nat nat) : Match * gmap nat nat :=
  match js with
  | [] => st
  | j :: js' =>
    if (j <? blo)%nat then scan_row blo bhi i j2len js' st
    else if (bhi <=? j)%nat then st
    else
      let '(best, newj2len) := st in
      let k := (j2len_get j2len j + 1)%nat in
      let newj2len := <[j := k]> newj2len in
      let best := if (m_size best <? k)%nat
                  then {| m_a := i + 1 - k; m_b := j + 1 - k; m_size := k |}
                  else best in
      scan_row blo bhi i j2len js' (best, newj2len)
  end.

(** The loop [for i in range(alo, ahi)]. *)
Definition scan_rows (a b : list A) (alo ahi blo bhi : nat) : Match :=
  fst (fold_left
         (fun (st : Match * gmap nat nat) i =>
            let '(best, j2len) := st in
            let js := match a !! i with Some x => b2j b x | None => [] end in
            scan_row blo bhi i j2len js (best, ∅))
         (seq alo (ahi - alo))
         ({| m_a := alo; m_b := blo; m_size := 0 |}, ∅)).

(** The two loops that extend the best block at each end over elements
    that [b2j] does not list.  The junk set is empty, so the two further
    loops over junk elements never iterate. *)
Fixpoint extend_left (fuel : nat) (a b : list A) (alo blo : nat) (m : Match) : Match :=
  match fuel with
  | O => m
  | S fuel' =>
    if (alo <? m_a m)%nat && (blo <? m_b m)%nat &&
       bool_decide (is_Some (a !! (m_a m - 1)%nat) ∧ a !! (m_a m - 1)%nat = b !! (m_b m - 1)%nat)
    then extend_left fuel' a b alo blo
           {| m_a := m_a m - 1; m_b := m_b m - 1; m_size := m_size m + 1 |}
    else m
  end.

Fixpoint extend_right (fuel : nat) (a b : list A) (ahi bhi : nat) (m : Match) : Match :=
  match fuel with
  | O => m
  | S fuel' =>
    if (m_a m + m_size m <? ahi)%nat && (m_b m + m_size m <? bhi)%nat &&
       bool_decide (is_Some (a !! (m_a m + m_size m)%nat) ∧
                    a !! (m_a m + m_size m)%nat = b !! (m_b m + m_size m)%nat)
    then extend_right fuel' a b ahi bhi
           {| m_a := m_a m; m_b := m_b m; m_size := m_size m + 1 |}
    else m
  end.

Definition find_longest_match (a b : list A) (alo ahi blo bhi : nat) : Match :=
  let m := scan_rows a b alo ahi blo bhi in
  let m := extend_left (m_a m) a b alo blo m in
  extend_right (length a) a b ahi bhi m.

(** [get_matching_blocks]: the work list [queue] is a stack, its top at the
    head. *)
Fixpoint blocks_loop (fuel : nat) (a b : list A)
    (queue : list (nat * nat * nat * nat)) (matching_blocks : list Match) : list Match :=
  match fuel with
  | O => matching_blocks
  | S fuel' =>
    match queue with
    | [] => matching_blocks
    | (alo, ahi, blo, bhi) :: queue =>
      let x := find_longest_match a b alo ahi blo bhi in
      let '(i, j, k) := (m_a x, m_b x, m_size x) in
      if (k =? 0)%nat then blocks_loop fuel' a b queue matching_blocks
      else
        let queue := if (alo <? i)%nat && (blo <? j)%nat
                     then (alo, i, blo, j) :: queue else queue in
        let queue := if (i + k <? ahi)%nat && (j + k <? bhi)%nat
                     then (i + k, ahi, j + k, bhi)%nat :: queue else queue in
        blocks_loop fuel' a b queue (matching_blocks ++ [x])
    end
  end.

Definition get_matching_blocks (a b : list A) : list Match :=
  blocks_loop (2 * length a + 1) a b [(0, length a, 0, length b)%nat] [].

(** [ratio()]: [2.0 * matches / length], and [1.0] for two empty
    sequences.  The quotient is kept exact. *)
Definition ratio (a b : list A) : Q :=
  let matches := foldr (fun x acc => (m_size x + acc)%nat) 0%nat (get_matching_blocks a b) in
  let length := (length a + length b)%nat in
  match length with
  | O => 1%Q
  | S _ => Qmake (Z.of_nat (2 * matches)) (Pos.of_nat length)
  end.
End with_elements.
End Difflib.

(** ** The knowledge base *)

Module KB.
Import PyStr Normalizer.

(** The [language] argument of the methods.  Nothing checks that it is a
    [str]; the methods use it only as the key of [dict.get] on mappings
    whose keys are texts, so what matters is whether it is a text, and
    which one.  [NotText] stands for any other hashable value ([None], a
    boolean, a number): no mapping holds it.  (A value that cannot be
    hashed, a list or a [dict], makes the first [.get(language, ...)]
    raise [TypeError]: see the caller, [App.ask_question].) *)
Inductive Key :=
  | Text (s : str)
  | NotText.
#[warning="-uniform-inheritance"] Coercion Text : list >-> Key.
#[global] Instance Key_eq_dec : EqDecision Key.
Proof. solve_decision. Defined.

(** [mapping.get(language)] *)
#[global] Instance key_lookup {A} : Lookup Key A (gmap str A) | 100 :=
  fun key mapping =>
    match key with
    | Text s => mapping !! s
    | NotText => None
    end.

(** An entry of the static source:
    [{id, question: {lang: [phrases]}, answer: {lang: text}, keywords: [..]}].
    The code reads [question] and [keywords] with [.get] and an empty
    default, so an absent key is the empty mapping or list.  It
    subscripts [answer]: [e_answer] is [None] when the key is absent, and
    reading it then raises [KeyError].  It subscripts [id] as well, for
    every entry, while the index is built: an entry of a constructed
    object has one. *)
Record Entry := {
  e_id : str;
  e_question : gmap str (list str);
  e_answer : option (gmap str str);
  e_keywords : list str
}.

(** A category: [{name: {lang: text}, entries: [...]}]. *)
Record Category := {
  c_name : gmap str str;
  c_entries : list Entry
}.

(** [self.data], the parsed document.  [categories] is a [dict] iterated
    with [.items()], hence kept in insertion order; it is [None] when the
    key is absent. *)
Record Data := {
  d_categories : option (list (str * Category));
  d_common_questions : gmap str (gmap str (list str));
  d_responses : gmap str (gmap str str)
}.

(** The dictionaries collected in [matches]:
    [{'category', 'entry_id', 'entry'}], with ['similarity'] on those the
    fuzzy pass makes. *)
Record Hit := {
  category : str;
  entry_id : str;
  entry : Entry;
  similarity : option Q
}.

(** The attributes of a [KnowledgeBase] object. *)
Record KnowledgeBase := {
  data : Data;
  categories : list str;
  keywords_index : gmap str (list Hit)
}.

#[global] Instance Q_eq_dec : EqDecision Q.
Proof. solve_decision. Defined.
#[global] Instance Entry_eq_dec : EqDecision Entry.
Proof. solve_decision. Defined.
#[global] Instance Hit_eq_dec : EqDecision Hit.
Proof. solve_decision. Defined.

Definition empty_data : Data :=
  {| d_categories := None; d_common_questions := ∅; d_responses := ∅ |}.

(** [self.data.get('categories', {})] as the list of its items *)
Definition categories_items (d : Data) : list (str * Category) :=
  default [] (d_categories d).

(** *** The built-in data set

    The document [create_default_knowledge_base] materialises when the
    static source is absent ([metadata] is never read and is left out). *)

Definition entry_rice_planting_time : Entry := {|
  e_id := (py "rice_planting_time");
  e_question := list_to_map [
    ((py "en"),
     [(py "when to plant rice");
      (py "rice planting season");
      (py "best time for rice cultivation")]);
    ((py "hi"),
     [(py "चावल कब लगाएं");
      (py "चावल बोने का समय");
      (py "धान की खेती का समय")])];
  e_answer := Some (list_to_map [
    ((py "en"),
     (py "Rice should be planted during monsoon season, typically June to July in most regions of India. For Kharif rice, plant after the first good rain when soil moisture is adequate. Transplant 20-25 day old seedlings in well-prepared, puddled fields."));
    ((py "hi"),
     (py "चावल मानसून के दौरान लगाना चाहिए, भारत के अधिकांश क्षेत्रों में आमतौर पर जून से जुलाई में। खरीफ चावल के लिए, जब मिट्टी में पर्याप्त नमी हो तो पहली अच्छी बारिश के बाद बोएं। 20-25 दिन पुराने पौधों को तैयार खेत में रोपें।"))]);
  e_keywords := [(py "rice");
    (py "paddy");
    (py "monsoon");
    (py "kharif");
    (py "चावल");
    (py "धान");
    (py "खरीफ");
    (py "मानसून")]
|}.

Definition entry_wheat_cultivation : Entry := {|
  e_id := (py "wheat_cultivation");
  e_question := list_to_map [
    ((py "en"),
     [(py "when to sow wheat");
      (py "wheat planting time");
      (py "rabi wheat season")]);
    ((py "hi"),
     [(py "गेहूं कब बोएं");
      (py "गेहूं बोने का समय");
      (py "रबी गेहूं का मौसम")])];
  e_answer := Some (list_to_map [
    ((py "en"),
     (py "Wheat is a Rabi crop, best sown from November to December. The ideal temperature for sowing is 18-25°C. Ensure adequate soil moisture and sow seeds at 2-3 cm depth with proper row spacing of 20-25 cm."));
    ((py "hi"),
     (py "गेहूं एक रबी की फसल है, जो नवंबर से दिसंबर में बोई जाती है। बुआई के लिए आदर्श तापमान 18-25°C है। पर्याप्त मिट्टी की नमी सुनिश्चित करें और बीजों को 2-3 सेमी गहराई में 20-25 सेमी की उचित पंक्ति दूरी के साथ बोएं।"))]);
  e_keywords := [(py "wheat");
    (py "rabi");
    (py "november");
    (py "december");
    (py "गेहूं");
    (py "रबी");
    (py "नवंबर");
    (py "दिसंबर")]
|}.

Definition entry_soil_testing : Entry := {|
  e_id := (py "soil_testing");
  e_question := list_to_map [
    ((py "en"),
     [(py "how to test soil");
      (py "soil testing methods");
      (py "check soil quality")]);
    ((py "hi"),
     [(py "मिट्टी की जांच कैसे करें");
      (py "भूमि परीक्षण");
      (py "मिट्टी की गुणवत्ता")])];
  e_answer := Some (list_to_map [
    ((py "en"),
     (py "Test your soil every 2-3 years. Collect samples from 6-8 inches depth from multiple spots. Test for pH, nitrogen, phosphorus, potassium, and organic matter. Contact your local agriculture extension office or use soil testing kits."));
    ((py "hi"),
     (py "हर 2-3 साल में अपनी मिट्टी की जांच करवाएं। कई स्थानों से 6-8 इंच की गहराई से नमूने लें। pH, नाइट्रोजन, फास्फोरस, पोटेशियम और जैविक पदार्थ की जांच कराएं। स्थानीय कृषि विस्तार कार्यालय से संपर्क करें।"))]);
  e_keywords := [(py "soil test");
    (py "pH");
    (py "nitrogen");
    (py "phosphorus");
    (py "potassium");
    (py "मिट्टी जांच");
    (py "नाइट्रोजन");
    (py "फास्फोरस");
    (py "पोटेशियम")]
|}.

Definition category_crop_planning : Category := {|
  c_name := list_to_map [((py "en"), (py "Crop Planning and Timing")); ((py "hi"), (py "फसल योजना और समय"))];
  c_entries := [entry_rice_planting_time; entry_wheat_cultivation]
|}.

Definition category_soil_management : Category := {|
  c_name := list_to_map [((py "en"), (py "Soil Management")); ((py "hi"), (py "मिट्टी प्रबंधन"))];
  c_entries := [entry_soil_testing]
|}.

Definition default_data : Data := {|
  d_categories := Some [
    (py "crop_planning", category_crop_planning);
    (py "soil_management", category_soil_management)];
  d_common_questions := list_to_map [
    ((py "greetings"), list_to_map [
       ((py "en"), [(py "hello"); (py "hi"); (py "good morning"); (py "good evening"); (py "namaste")]);
       ((py "hi"), [(py "नमस्ते"); (py "नमस्कार"); (py "हैलो"); (py "सुप्रभात"); (py "शुभ संध्या")])]);
    ((py "help"), list_to_map [
       ((py "en"), [(py "help"); (py "what can you do"); (py "how to use"); (py "assistance")]);
       ((py "hi"), [(py "सहायता"); (py "मदद"); (py "आप क्या कर सकते हैं"); (py "कैसे उपयोग करें")])])];
  d_responses := list_to_map [
    ((py "greetings"), list_to_map [
       ((py "en"),
        (py "Hello! I'm your agricultural advisor. You can ask me about crop timing, soil management, irrigation, pest control, fertilizers, and weather-related farming questions. How can I help you today?"));
       ((py "hi"),
        (py "नमस्ते! मैं आपका कृषि सलाहकार हूं। आप मुझसे फसल का समय, मिट्टी प्रबंधन, सिंचाई, कीट नियंत्रण, उर्वरक, और मौसम संबंधी खेती के प्रश्न पूछ सकते हैं। आज मैं आपकी कैसे सहायता कर सकता हूं?"))]);
    ((py "help"), list_to_map [
       ((py "en"),
        (py "I can help you with:
• Crop planting times and seasons
• Soil management and testing
• Irrigation and water management
• Pest and disease control
• Fertilizer recommendations
• Weather adaptation strategies

Just ask your question in English or Hindi!"));
       ((py "hi"),
        (py "मैं इन विषयों में आपकी सहायता कर सकता हूं:
• फसल लगाने का समय और मौसम
• मिट्टी प्रबंधन और परीक्षण
• सिंचाई और जल प्रबंधन
• कीट और रोग नियंत्रण
• उर्वरक सिफारिशें
• मौसम अनुकूलन रणनीतियां

अपना प्रश्न अंग्रेजी या हिंदी में पूछें!"))]);
    ((py "not_found"), list_to_map [
       ((py "en"),
        (py "I'm sorry, I don't have specific information about that topic in my knowledge base. Could you please rephrase your question or ask about crop planning, soil management, irrigation, pest control, fertilizers, or weather-related farming topics?"));
       ((py "hi"),
        (py "क्षमा करें, मेरे ज्ञान आधार में उस विषय के बारे में विशिष्ट जानकारी नहीं है। कृपया अपना प्रश्न दूसरे तरीके से पूछें या फसल योजना, मिट्टी प्रबंधन, सिंचाई, कीट नियंत्रण, उर्वरक, या मौसम संबंधी खेती के विषयों के बारे में पूछें।"))])]
|}.

(** *** Methods as state transformers over the object *)

Definition KBM (A : Type) : Type := KnowledgeBase -> A * KnowledgeBase.

#[global] Instance KBM_ret : MRet KBM := fun A x self => (x, self).
#[global] Instance KBM_bind : MBind KBM :=
  fun A B f m self => let '(x, self') := m self in f x self'.
#[global] Instance KBM_fmap : FMap KBM :=
  fun A B f m self => let '(x, self') := m self in (f x, self').

Definition get_self : KBM KnowledgeBase := fun self => (self, self).
Definition set_data (d : Data) : KBM unit :=
  fun self => (tt, {| data := d; categories := categories self;
                      keywords_index := keywords_index self |}).
Definition set_categories (cs : list str) : KBM unit :=
  fun self => (tt, {| data := data self; categories := cs;
                      keywords_index := keywords_index self |}).
Definition set_keywords_index (idx : gmap str (list Hit)) : KBM unit :=
  fun self => (tt, {| data := data self; categories := categories self;
                      keywords_index := idx |}).

Definition evalM {A} (m : KBM A) (self : KnowledgeBase) : A := fst (m self).
Definition execM {A} (m : KBM A) (self : KnowledgeBase) : KnowledgeBase := snd (m self).

(** The similarity threshold of [search_by_patterns]: [similarity > 0.3].
    Python compares the double nearest to [2 * matches / length] with the
    double nearest to 3/10; rounding is monotone and two such quotients
    differ from 3/10 by at least [1 / (10 * length)], so for texts of less
    than 10^15 code points the comparison is the exact one made here. *)
Definition threshold : Q := 3 # 10.
Definition exceeds_threshold (sim : Q) : bool := negb (Qle_bool sim threshold).

Section with_ucd.
Context `{UnicodeData}.

(** [index[keyword_clean].append(hit)], creating the bucket when absent *)
Definition index_append (idx : gmap str (list Hit)) (key : str) (h : Hit)
    : gmap str (list Hit) :=
  <[key := default [] (idx !! key) ++ [h]]> idx.

Definition keyword_hit (category_id : str) (e : Entry) : Hit :=
  {| category := category_id; entry_id := e_id e; entry := e; similarity := None |}.

Definition index_entry (category_id : str) (idx : gmap str (list Hit)) (e : Entry)
    : gmap str (list Hit) :=
  fold_left (fun idx keyword =>
               let keyword_clean := normalize_text (lower keyword) in
               index_append idx keyword_clean (keyword_hit category_id e))
            (e_keywords e) idx.

Definition index_category (idx : gmap str (list Hit)) (item : str * Category)
    : gmap str (list Hit) :=
  fold_left (index_entry item.1) (c_entries item.2) idx.

(** [build_search_index] *)
Definition build_search_index : KBM unit :=
  _ ← set_keywords_index ∅;
  self ← get_self;
  match d_categories (data self) with
  | None => mret tt
  | Some items => set_keywords_index (fold_left index_category items ∅)
  end.

(** [is_greeting] and [is_help_request] *)
Definition is_greeting (text : str) (language : Key) : KBM bool :=
  self ← get_self;
  let greetings := default ∅ (d_common_questions (data self) !! py "greetings") in
  let greeting_words :=
    default [] (greetings !! language) ++ default [] (greetings !! py "en") in
  mret (existsb (fun greeting => contains text (normalize_text greeting)) greeting_words).

Definition is_help_request (text : str) (language : Key) : KBM bool :=
  self ← get_self;
  let help_words := default ∅ (d_common_questions (data self) !! py "help") in
  let help_patterns :=
    default [] (help_words !! language) ++ default [] (help_words !! py "en") in
  mret (existsb (fun pattern => contains text (normalize_text pattern)) help_patterns).

(** [get_response] *)
Definition apology : str := py "I apologize, but I cannot help with that right now.".

Definition get_response (response_type : str) (language : Key) : KBM str :=
  self ← get_self;
  let responses := d_responses (data self) in
  let response_data := default ∅ (responses !! response_type) in
  mret (default (default apology (response_data !! py "en")) (response_data !! language)).

(** [search_by_patterns]: the hits of one entry, of one category, of the
    whole base, in iteration order. *)
Definition entry_pattern_hits (question : str) (language : Key) (category_id : str)
    (e : Entry) : list Hit :=
  let entry_questions := default [] (e_question e !! language) in
  flat_map (fun pattern =>
              let pattern_normalized := normalize_text pattern in
              let sim := Difflib.ratio question pattern_normalized in
              if exceeds_threshold sim
              then [{| category := category_id; entry_id := e_id e; entry := e;
                       similarity := Some sim |}]
              else [])
           entry_questions.

Definition category_pattern_hits (question : str) (language : Key) (item : str * Category)
    : list Hit :=
  flat_map (entry_pattern_hits question language item.1) (c_entries item.2).

Definition search_by_patterns (question : str) (language : Key) : KBM (list Hit) :=
  self ← get_self;
  mret (flat_map (category_pattern_hits question language) (categories_items (data self))).

(** [search_entries]: the keyword loop, then the fuzzy pass when the loop
    found nothing. *)
Definition add_hit (matches : list Hit) (h : Hit) : list Hit :=
  if decide (h ∈ matches) then matches else matches ++ [h].

Definition keyword_matches (idx : gmap str (list Hit)) (question_words : list str)
    : list Hit :=
  fold_left (fun matches word =>
               match idx !! word with
               | Some bucket => fold_left add_hit bucket matches
               | None => matches
               end)
            question_words [].

Definition search_entries (question : str) (language : Key) : KBM (list Hit) :=
  self ← get_self;
  let question_words := split question in
  let matches := keyword_matches (keywords_index self) question_words in
  match matches with
  | [] => search_by_patterns question language
  | _ => mret matches
  end.

(** [best_match['entry']['answer'].get(language, ....get('en', ''))]:
    [None] is the [KeyError] of an entry without ['answer']. *)
Definition answer_text (e : Entry) (language : Key) : option str :=
  answer ← e_answer e;
  Some (default (default [] (answer !! py "en")) (answer !! language)).

(** [get_answer]: the text returned, or [None] when the call raises.  The
    only statement of it that can raise, for a question that is a text
    and a language that can be hashed, is the one that reads ['answer']. *)
Definition get_answer (question : str) (language : Key) : KBM (option str) :=
  match strip question with
  | [] => Some <$> get_response (py "not_found") language
  | _ =>
    let question_normalized := normalize_text question in
    greeting ← is_greeting question_normalized language;
    if greeting : bool then Some <$> get_response (py "greetings") language else
    help ← is_help_request question_normalized language;
    if help : bool then Some <$> get_response (py "help") language else
    matches ← search_entries question_normalized language;
    match matches with
    | best_match :: _ => mret (answer_text (entry best_match) language)
    | [] => Some <$> get_response (py "not_found") language
    end
  end.

(** [load_data].  What reading the static source gave is an input: the
    parsed document, no file (the built-in data set is created), or an
    exception somewhere in the [try] block.  The documents are those the
    constructor accepts: with an entry that has no ['id'],
    [build_search_index] raises and no object is built. *)
Inductive Source :=
  | FileParsed (d : Data)
  | FileAbsent
  | FileError.

Definition load_data (src : Source) : KBM unit :=
  match src with
  | FileParsed d =>
    _ ← set_data d;
    self ← get_self;
    set_categories (map fst (categories_items (data self)))
  | FileAbsent =>
    _ ← set_data default_data;
    self ← get_self;
    set_categories (map fst (categories_items (data self)))
  | FileError =>
    _ ← set_data empty_data;
    set_categories []
  end.

(** [__init__] *)
Definition blank : KnowledgeBase :=
  {| data := empty_data; categories := []; keywords_index := ∅ |}.

Definition KnowledgeBase_init (src : Source) : KnowledgeBase :=
  execM (_ ← load_data src; build_search_index) blank.

(** [get_categories] and [is_loaded] *)
Definition get_categories : KBM (list (str * gmap str str * nat)) :=
  self ← get_self;
  mret (map (fun item : str * Category =>
               (item.1, c_name item.2, length (c_entries item.2)))
            (categories_items (data self))).

Definition is_loaded : KBM bool :=
  self ← get_self;
  mret (bool_decide (is_Some (d_categories (data self)))).
End with_ucd.
End KB.

(** ** A fragment of the Unicode character database

    The database restricted to Basic Latin (U+0000..U+007F), the letters
    of the Latin-1 Supplement (U+00C0..U+00FF), the Combining Diacritical
    Marks (U+0300..U+036F) and Devanagari (U+0900..U+097F).  Every other
    code point is treated as an unassigned one: no decomposition, class 0,
    neither alphanumeric nor white space, caseless. *)

Module Fragment.

Definition in_ranges (rs : list (N * N)) (c : N) : bool :=
  existsb (fun r : N * N => (r.1 <=? c) && (c <=? r.2)) rs.

Fixpoint range_value (rs : list (N * N * N)) (c : N) : N :=
  match rs with
  | [] => 0
  | (lo, hi, v) :: rs' => if (lo <=? c) && (c <=? hi) then v else range_value rs' c
  end.

Fixpoint assoc_value (t : list (N * list N)) (c : N) : list N :=
  match t with
  | [] => [c]
  | (k, v) :: t' => if k =? c then v else assoc_value t' c
  end.

Definition decomposition_table : list (N * list N) :=
  [(0xC0, [0x41; 0x300]); (0xC1, [0x41; 0x301]); (0xC2, [0x41; 0x302]);
   (0xC3, [0x41; 0x303]); (0xC4, [0x41; 0x308]); (0xC5, [0x41; 0x30A]);
   (0xC7, [0x43; 0x327]); (0xC8, [0x45; 0x300]); (0xC9, [0x45; 0x301]);
   (0xCA, [0x45; 0x302]); (0xCB, [0x45; 0x308]); (0xCC, [0x49; 0x300]);
   (0xCD, [0x49; 0x301]); (0xCE, [0x49; 0x302]); (0xCF, [0x49; 0x308]);
   (0xD1, [0x4E; 0x303]); (0xD2, [0x4F; 0x300]); (0xD3, [0x4F; 0x301]);
   (0xD4, [0x4F; 0x302]); (0xD5, [0x4F; 0x303]); (0xD6, [0x4F; 0x308]);
   (0xD9, [0x55; 0x300]); (0xDA, [0x55; 0x301]); (0xDB, [0x55; 0x302]);
   (0xDC, [0x55; 0x308]); (0xDD, [0x59; 0x301]); (0xE0, [0x61; 0x300]);
   (0xE1, [0x61; 0x301]); (0xE2, [0x61; 0x302]); (0xE3, [0x61; 0x303]);
   (0xE4, [0x61; 0x308]); (0xE5, [0x61; 0x30A]); (0xE7, [0x63; 0x327]);
   (0xE8, [0x65; 0x300]); (0xE9, [0x65; 0x301]); (0xEA, [0x65; 0x302]);
   (0xEB, [0x65; 0x308]); (0xEC, [0x69; 0x300]); (0xED, [0x69; 0x301]);
   (0xEE, [0x69; 0x302]); (0xEF, [0x69; 0x308]); (0xF1, [0x6E; 0x303]);
   (0xF2, [0x6F; 0x300]); (0xF3, [0x6F; 0x301]); (0xF4, [0x6F; 0x302]);
   (0xF5, [0x6F; 0x303]); (0xF6, [0x6F; 0x308]); (0xF9, [0x75; 0x300]);
   (0xFA, [0x75; 0x301]); (0xFB, [0x75; 0x302]); (0xFC, [0x75; 0x308]);
   (0xFD, [0x79; 0x301]); (0xFF, [0x79; 0x308]); (0x340, [0x300]);
   (0x341, [0x301]); (0x343, [0x313]); (0x344, [0x308; 0x301]);
   (0x929, [0x928; 0x93C]); (0x931, [0x930; 0x93C]); (0x934, [0x933; 0x93C]);
   (0x958, [0x915; 0x93C]); (0x959, [0x916; 0x93C]); (0x95A, [0x917; 0x93C]);
   (0x95B, [0x91C; 0x93C]); (0x95C, [0x921; 0x93C]); (0x95D, [0x922; 0x93C]);
   (0x95E, [0x92B; 0x93C]); (0x95F, [0x92F; 0x93C])].

Definition combining_table : list (N * N * N) :=
  [(0x300, 0x314, 230); (0x315, 0x315, 232); (0x316, 0x319, 220);
   (0x31A, 0x31A, 232); (0x31B, 0x31B, 216); (0x31C, 0x320, 220);
   (0x321, 0x322, 202); (0x323, 0x326, 220); (0x327, 0x328, 202);
   (0x329, 0x333, 220); (0x334, 0x338, 1); (0x339, 0x33C, 220);
   (0x33D, 0x344, 230); (0x345, 0x345, 240); (0x346, 0x346, 230);
   (0x347, 0x349, 220); (0x34A, 0x34C, 230); (0x34D, 0x34E, 220);
   (0x350, 0x352, 230); (0x353, 0x356, 220); (0x357, 0x357, 230);
   (0x358, 0x358, 232); (0x359, 0x35A, 220); (0x35B, 0x35B, 230);
   (0x35C, 0x35C, 233); (0x35D, 0x35E, 234); (0x35F, 0x35F, 233);
   (0x360, 0x361, 234); (0x362, 0x362, 233); (0x363, 0x36F, 230);
   (0x93C, 0x93C, 7); (0x94D, 0x94D, 9); (0x951, 0x951, 230);
   (0x952, 0x952, 220); (0x953, 0x954, 230)].

Definition alnum_ranges : list (N * N) :=
  [(0x30, 0x39); (0x41, 0x5A); (0x61, 0x7A); (0xC0, 0xD6); (0xD8, 0xF6);
   (0xF8, 0xFF); (0x904, 0x939); (0x93D, 0x93D); (0x950, 0x950);
   (0x958, 0x961); (0x966, 0x96F); (0x971, 0x97F)].

Definition space_ranges : list (N * N) := [(0x09, 0x0D); (0x1C, 0x20)].

Definition upper_ranges : list (N * N) := [(0x41, 0x5A); (0xC0, 0xD6); (0xD8, 0xDE)].

Definition cased_ranges : list (N * N) :=
  [(0x41, 0x5A); (0x61, 0x7A); (0xC0, 0xD6); (0xD8, 0xF6); (0xF8, 0xFF);
   (0x345, 0x345)].

Definition case_ignorable_ranges : list (N * N) :=
  [(0x27, 0x27); (0x2E, 0x2E); (0x3A, 0x3A); (0x5E, 0x5E); (0x60, 0x60);
   (0x300, 0x36F); (0x900, 0x902); (0x93A, 0x93A); (0x93C, 0x93C);
   (0x941, 0x948); (0x94D, 0x94D); (0x951, 0x957); (0x962, 0x963);
   (0x971, 0x971)].

Definition ucd_fragment : UnicodeData := {|
  decomposition := assoc_value decomposition_table;
  combining := range_value combining_table;
  isalnum := in_ranges alnum_ranges;
  isspace := in_ranges space_ranges;
  tolower_full := fun c => if in_ranges upper_ranges c then [c + 32] else [c];
  iscased := in_ranges cased_ranges;
  iscase_ignorable := in_ranges case_ignorable_ranges
|}.

End Fragment.

(** ** The application: [backend/app.py]

    [FarmAdvisor._get_simple_answer], the fallback used when the models
    cannot be imported, and the route [/api/ask] that calls [get_answer]. *)

Module App.
Import PyStr KB.

(** *** [_create_simple_responses] *)

Definition simple_responses_en : gmap (list N) (list N) := list_to_map [
  (py "rice",
   py "Rice should be planted during monsoon season, typically June to July in most regions of India. For Kharif rice, plant after the first good rain when soil moisture is adequate. Transplant 20-25 day old seedlings in well-prepared, puddled fields.");
  (py "wheat",
   py "Wheat is a Rabi crop, best sown from November to December. The ideal temperature for sowing is 18-25°C. Ensure adequate soil moisture and sow seeds at 2-3 cm depth with proper row spacing of 20-25 cm.");
  (py "soil",
   py "Test your soil every 2-3 years. Collect samples from 6-8 inches depth from multiple spots. Test for pH, nitrogen, phosphorus, potassium, and organic matter. Contact your local agriculture extension office or use soil testing kits.");
  (py "water",
   py "Best time for irrigation is early morning (5-7 AM) or evening (6-8 PM) to minimize evaporation. Check soil moisture by inserting finger 2-3 inches deep. Water when top soil feels dry but subsoil is still moist.");
  (py "pest",
   py "Use Integrated Pest Management (IPM): Monitor regularly, encourage beneficial insects, use neem oil, practice crop rotation, maintain field hygiene. Use chemical pesticides only as last resort.");
  (py "fertilizer",
   py "Organic fertilizers include compost, farmyard manure, vermicompost, bone meal, and green manures. They improve soil structure, retain moisture, and provide slow-release nutrients. Apply 5-10 tons per hectare based on soil test results.");
  (py "hello",
   py "Hello! I'm your agricultural advisor. You can ask me about crop timing, soil management, irrigation, pest control, fertilizers, and weather-related farming questions. How can I help you today?");
  (py "help",
   py "I can help you with:
• Crop planting times and seasons
• Soil management and testing
• Irrigation and water management
• Pest and disease control
• Fertilizer recommendations
• Weather adaptation strategies

Just ask your question in English or Hindi!");
  (py "default",
   py "I can help you with questions about crop planning, soil management, irrigation, pest control, fertilizers, and weather adaptation. Please ask your specific farming question!")].

Definition simple_responses_hi : gmap (list N) (list N) := list_to_map [
  (py "rice",
   py "चावल मानसून के दौरान लगाना चाहिए, भारत के अधिकांश क्षेत्रों में आमतौर पर जून से जुलाई में। खरीफ चावल के लिए, जब मिट्टी में पर्याप्त नमी हो तो पहली अच्छी बारिश के बाद बोएं।");
  (py "wheat",
   py "गेहूं एक रबी की फसल है, जो नवंबर से दिसंबर में बोई जाती है। बुआई के लिए आदर्श तापमान 18-25°C है।");
  (py "soil",
   py "हर 2-3 साल में अपनी मिट्टी की जांच करवाएं। कई स्थानों से 6-8 इंच की गहराई से नमूने लें। pH, नाइट्रोजन, फास्फोरस, पोटेशियम और जैविक पदार्थ की जांच कराएं।");
  (py "water",
   py "सिंचाई का सबसे अच्छा समय सुबह (5-7 बजे) या शाम (6-8 बजे) है ताकि वाष्पीकरण कम हो।");
  (py "pest",
   py "एकीकृत कीट प्रबंधन (IPM) का उपयोग करें: नियमित निगरानी करें, लाभकारी कीटों को बढ़ावा दें, नीम का तेल उपयोग करें।");
  (py "fertilizer",
   py "जैविक उर्वरकों में खाद, गोबर की खाद, वर्मी कंपोस्ट, हड्डी का चूर्ण, और हरी खाद शामिल हैं।");
  (py "hello",
   py "नमस्ते! मैं आपका कृषि सलाहकार हूं। आप मुझसे फसल का समय, मिट्टी प्रबंधन, सिंचाई, कीट नियंत्रण, उर्वरक, और मौसम संबंधी खेती के प्रश्न पूछ सकते हैं।");
  (py "help",
   py "मैं इन विषयों में आपकी सहायता कर सकता हूं:
• फसल लगाने का समय और मौसम
• मिट्टी प्रबंधन और परीक्षण
• सिंचाई और जल प्रबंधन
• कीट और रोग नियंत्रण
• उर्वरक सिफारिशें
• मौसम अनुकूलन रणनीतियां");
  (py "default",
   py "मैं फसल योजना, मिट्टी प्रबंधन, सिंचाई, कीट नियंत्रण, उर्वरक, और मौसम अनुकूलन के बारे में प्रश्नों में सहायता कर सकता हूं। कृपया अपना विशिष्ट कृषि प्रश्न पूछें!")].

Definition simple_responses : gmap (list N) (gmap (list N) (list N)) :=
  list_to_map [(py "en", simple_responses_en); (py "hi", simple_responses_hi)].

(** *** [_get_simple_answer]

    [d[k]] raises [KeyError] on a missing key: the result is an option,
    [None] standing for the exception.  The defaults of [.get] are
    evaluated before the call, so [simple_responses['en']] and
    [responses['default']] are read even when they are not used. *)

Definition greeting_words : list (list N) :=
  [py "hello"; py "hi"; py "namaste"; py "नमस्ते"].

Definition help_words : list (list N) :=
  [py "help"; py "what can you do"; py "सहायता"; py "मदद"].

Definition keywords : list (list N) :=
  [py "rice"; py "wheat"; py "soil"; py "water"; py "pest"; py "fertilizer";
   py "चावल"; py "गेहूं"; py "मिट्टी"; py "पानी"; py "कीट"; py "खाद"].

Definition keyword_map : gmap (list N) (list N) :=
  list_to_map [(py "चावल", py "rice"); (py "गेहूं", py "wheat"); (py "मिट्टी", py "soil");
               (py "पानी", py "water"); (py "कीट", py "pest"); (py "खाद", py "fertilizer")].

(** The loop [for keyword in keywords]: [Some] when it returns. *)
Fixpoint keyword_answer (responses : gmap (list N) (list N)) (question_lower : list N)
    (keywords : list (list N)) : option (list N) :=
  match keywords with
  | [] => None
  | keyword :: keywords' =>
    if contains question_lower keyword
    then let lookup_key := default keyword (keyword_map !! keyword) in
         match responses !! lookup_key with
         | Some answer => Some answer
         | None => keyword_answer responses question_lower keywords'
         end
    else keyword_answer responses question_lower keywords'
  end.

Definition _get_simple_answer `{UnicodeData}
    (simple_responses : gmap (list N) (gmap (list N) (list N)))
    (question : list N) (language : Key) : option (list N) :=
  let question_lower := lower question in
  english ← simple_responses !! py "en";
  let responses := default english (simple_responses !! language) in
  if existsb (contains question_lower) greeting_words
  then fallback ← responses !! py "default";
       Some (default fallback (responses !! py "hello"))
  else if existsb (contains question_lower) help_words
  then fallback ← responses !! py "default";
       Some (default fallback (responses !! py "help"))
  else match keyword_answer responses question_lower keywords with
       | Some answer => Some answer
       | None => responses !! py "default"
       end.

(** *** The route [/api/ask]

    [request.get_json()] gives the body, any JSON value, or raises (no
    body, or not JSON): that, as every exception raised in the [try]
    block, ends in the [except] branch.  A number is kept as its literal,
    the route computing nothing with it.  [time.time()] is an input.  The
    interaction log is an object of its own, changed by
    [log_interaction], which catches its own exceptions. *)

#[warning="-register-all"]
Inductive Json :=
  | JNull
  | JBool (b : bool)
  | JNumber (literal : list N)
  | JString (s : list N)
  | JArray (items : list Json)
  | JObject (fields : gmap (list N) Json).

(** The value as a key of [dict.get]: a list or a [dict] cannot be hashed,
    [.get] raises [TypeError]. *)
Definition hashable (v : Json) : option Key :=
  match v with
  | JString s => Some (Text s)
  | JNull | JBool _ | JNumber _ => Some NotText
  | JArray _ | JObject _ => None
  end.

Section with_database.
Context `{UnicodeData}.
Context {DB Time : Type}.
Variable log_interaction : DB -> list N -> list N -> list N -> Json -> DB.

(** [FarmAdvisor.__init__]: with the models, a knowledge base and a
    database manager; without, the simple responses. *)
Inductive FarmAdvisor :=
  | WithModels (knowledge_base : KnowledgeBase) (db_manager : DB)
  | WithoutModels (simple_responses : gmap (list N) (gmap (list N) (list N))).

(** The JSON answers of the route with their status codes. *)
Inductive Response :=
  | Answered (question answer : list N) (language : Json) (timestamp : Time)
  | NoQuestionProvided
  | FailedToProcess.


(** [data.get('question', '').strip()] raises [AttributeError] when the
    body is not an object or the question not a text; the language is read
    before the question is tested, and used after.  The first use of the
    language, in either mode, is as a key of [.get]. *)
Definition ask_question (now : Time) (data : option Json) (self : FarmAdvisor)
    : Response * FarmAdvisor :=
  match data with
  | Some (JObject data) =>
    match default (JString []) (data !! py "question") with
    | JString question =>
      let question := strip question in
      let language := default (JString (py "en")) (data !! py "language") in
      match question with
      | [] => (NoQuestionProvided, self)
      | _ =>
        match hashable language with
        | None => (FailedToProcess, self)
        | Some key =>
          match self with
          | WithModels knowledge_base db_manager =>
            match get_answer question key knowledge_base with
            | (Some answer, knowledge_base) =>
              let db_manager :=
                log_interaction db_manager question answer (py "text") language in
              (Answered question answer language now,
               WithModels knowledge_base db_manager)
            | (None, knowledge_base) =>
              (FailedToProcess, WithModels knowledge_base db_manager)
            end
          | WithoutModels simple_responses =>
            match _get_simple_answer simple_responses question key with
            | Some answer => (Answered question answer language now, self)
            | None => (FailedToProcess, self)
            end
          end
        end
      end
    | _ => (FailedToProcess, self)
    end
  | _ => (FailedToProcess, self)
  end.

End with_database.
End App.

(** * Vocabulary of the properties *)

Module NormalForm.
Import PyStr Normalizer.
Section with_ucd.
Context `{UnicodeData}.

(** A code point that survives the first four steps of [normalize_text]
    inside a word. *)
Definition settled (c : N) : Prop :=
  isword c = true /\ isspace c = false /\ combining c = 0 /\ decomposition c = [c].

(** A code point [s.lower()] leaves alone. *)
Definition caseless (c : N) : Prop :=
  tolower_full c = [c] /\ c <> CAPITAL_SIGMA.

(** What [lower_ucs4] can produce for a code point. *)
Definition lower_images (c : N) : list N :=
  if c =? CAPITAL_SIGMA then [SMALL_SIGMA; FINAL_SIGMA] else tolower_full c.

(** The facts about the character database the fixed point rests on: the
    space is inert; decompositions are full; lower-casing a settled code
    point gives settled, caseless code points, and at least one. *)
Record ucd_consistent : Prop := {
  space_inert :
    decomposition SPACE = [SPACE] /\ combining SPACE = 0 /\
    isspace SPACE = true /\ tolower_full SPACE = [SPACE];
  decomposition_full :
    forall c d, d ∈ decomposition c -> decomposition d = [d];
  lower_settled :
    forall c d, settled c -> d ∈ lower_images c -> settled d /\ caseless d;
  lower_nonempty :
    forall c, settled c -> lower_images c <> []
}.

(** The shape of white space in a normalised text: single spaces, between
    words only.  [after_space] tells that the text follows a space (or
    starts): then it may neither be empty nor begin with white space. *)
Fixpoint spaced (after_space : bool) (s : str) : bool :=
  match s with
  | [] => negb after_space
  | c :: s' =>
    if isspace c then negb after_space && (c =? SPACE) && spaced true s'
    else spaced false s'
  end.

Definition well_spaced (s : str) : Prop := s = [] \/ spaced true s = true.

(** The same shape, a trailing space allowed. *)
Fixpoint single_spaced (after_space : bool) (s : str) : bool :=
  match s with
  | [] => true
  | c :: s' =>
    if isspace c then negb after_space && (c =? SPACE) && single_spaced true s'
    else single_spaced false s'
  end.

Definition tidy (c : N) : Prop := c = SPACE \/ (settled c /\ caseless c).
#[global] Instance settled_dec (c : N) : Decision (settled c).
Proof. unfold settled. apply _. Defined.
#[global] Instance caseless_dec (c : N) : Decision (caseless c).
Proof. unfold caseless. apply _. Defined.

End with_ucd.
End NormalForm.

Module KBSpec.
Import PyStr Normalizer KB.

(** A method that leaves the object as it found it. *)
Definition read_only {A} (m : KBM A) : Prop :=
  forall self, execM m self = self.




Section with_ucd.
Context `{UnicodeData}.

(** The index as a list of postings [(keyword_clean, hit)], in the order
    [build_search_index] appends them. *)
Definition entry_postings (category_id : str) (e : Entry) : list (str * Hit) :=
  map (fun keyword => (normalize_text (lower keyword), keyword_hit category_id e))
      (e_keywords e).

Definition category_postings (item : str * Category) : list (str * Hit) :=
  flat_map (entry_postings item.1) (c_entries item.2).

Definition postings (items : list (str * Category)) : list (str * Hit) :=
  flat_map category_postings items.

Definition index_of_postings (ps : list (str * Hit)) (idx : gmap str (list Hit))
    : gmap str (list Hit) :=
  fold_left (fun idx (p : str * Hit) => index_append idx p.1 p.2) ps idx.

Definition bucket_of (ps : list (str * Hit)) (key : str) : list Hit :=
  map snd (filter (fun p : str * Hit => p.1 = key) ps).

(** The keyword loop from any list of matches collected so far. *)
Definition keyword_loop (idx : gmap str (list Hit)) (question_words : list str)
    (matches : list Hit) : list Hit :=
  fold_left (fun matches word =>
               match idx !! word with
               | Some bucket => fold_left add_hit bucket matches
               | None => matches
               end)
            question_words matches.

(** The keys under which an entry is indexed. *)
Definition entry_keys (e : Entry) : list str :=
  map (fun keyword => normalize_text (lower keyword)) (e_keywords e).

(** The entries met before the entry at position [(i, j)] in the iteration
    over categories and their entries. *)
Definition entries_before (items : list (str * Category)) (i j : nat) : list Entry :=
  flat_map (fun item : str * Category => c_entries item.2) (take i items) ++
  match items !! i with
  | Some item => take j (c_entries item.2)
  | None => []
  end.

End with_ucd.
End KBSpec.

(** Knowledge bases the properties are run on. *)
Module Scenarios.
Import KB.

(** The object built when the static source is absent. *)
Definition default_kb `{UnicodeData} : KnowledgeBase := KnowledgeBase_init FileAbsent.


(** A static source with an entry for users who type a question mark. *)
Definition entry_question_mark : Entry := {|
  e_id := py "question_mark";
  e_question := list_to_map [(py "en", [py "?"; py "??"])];
  e_answer := Some (list_to_map [(py "en", py "Please type your question in words.")]);
  e_keywords := []
|}.

Definition punctuation_data : Data := {|
  d_categories :=
    Some [(py "usage",
           {| c_name := list_to_map [(py "en", py "Using the advisor")];
              c_entries := [entry_question_mark] |})];
  d_common_questions := ∅;
  d_responses := ∅
|}.

(** A static source with an entry that has no ['answer']. *)
Definition entry_compost : Entry := {|
  e_id := py "compost_making";
  e_question := list_to_map [(py "en", [py "how to make compost"])];
  e_answer := None;
  e_keywords := [py "compost"]
|}.

Definition unanswered_data : Data := {|
  d_categories :=
    Some [(py "soil_management",
           {| c_name := list_to_map [(py "en", py "Soil Management")];
              c_entries := [entry_compost] |})];
  d_common_questions := ∅;
  d_responses := ∅
|}.

(** The identifier and similarity of each hit, in the order returned. *)
Definition ranking (hits : list Hit) : list (list N * option Q) :=
  map (fun h => (entry_id h, similarity h)) hits.

End Scenarios.

(** The work list of [get_matching_blocks], measured. *)
Module DifflibSpec.

(** A range [(alo, ahi, blo, bhi)] of the work list costs at most
    [2 * (ahi - alo) + 1] further iterations. *)
Definition range_weight (r : nat * nat * nat * nat) : nat :=
  (2 * (r.1.1.2 - r.1.1.1) + 1)%nat.

Definition queue_weight (queue : list (nat * nat * nat * nat)) : nat :=
  foldr (fun r acc => (range_weight r + acc)%nat) 0%nat queue.

Definition range_ok (r : nat * nat * nat * nat) : Prop :=
  (r.1.1.1 <= r.1.1.2)%nat.

End DifflibSpec.

(** Further vocabulary: phrases in iteration order, unknown languages. *)
Module KBSpecMore.
Import PyStr Normalizer KB.

(** The phrases the fuzzy pass compares for a language, with their
    category and entry, in the order [search_by_patterns] meets them. *)
Definition entry_phrases (language category_id : str) (e : Entry)
    : list (str * Entry * str) :=
  map (fun pattern => (category_id, e, pattern)) (default [] (e_question e !! language)).

Definition category_phrases (language : str) (item : str * Category)
    : list (str * Entry * str) :=
  flat_map (entry_phrases language item.1) (c_entries item.2).

Definition phrases (d : Data) (language : str) : list (str * Entry * str) :=
  flat_map (category_phrases language) (categories_items d).

(** The trigger phrases [is_greeting] and [is_help_request] go through. *)
Definition trigger_phrases (d : Data) (intent language : str) : list str :=
  let table := default ∅ (d_common_questions d !! intent) in
  default [] (table !! language) ++ default [] (table !! py "en").

(** A language code none of the language-keyed tables of the data has:
    no trigger list, no response text, no answer and no phrase list is
    filed under it. *)
Definition language_unknown (d : Data) (language : str) : Prop :=
  map_Forall (fun (_ : list N) (table : gmap (list N) (list (list N))) =>
                table !! language = None)
             (d_common_questions d) /\
  map_Forall (fun (_ : list N) (table : gmap (list N) (list N)) =>
                table !! language = None)
             (d_responses d) /\
  Forall (fun item : str * Category =>
            Forall (fun e => default ∅ (e_answer e) !! language = None /\
                             e_question e !! language = None)
                   (c_entries item.2))
         (categories_items d).

(** The hit the fuzzy pass makes of a phrase, if its similarity to the
    question exceeds the threshold. *)
Definition phrase_hits `{UnicodeData} (question : str) (t : str * Entry * str)
    : list Hit :=
  let sim := Difflib.ratio question (normalize_text t.2) in
  if exceeds_threshold sim
  then [{| category := t.1.1; entry_id := e_id t.1.2; entry := t.1.2;
           similarity := Some sim |}]
  else [].

End KBSpecMore.

(** Vocabulary for the application. *)
Module AppSpec.
Import KB App.

(** A response table that can answer: it holds a ['default'] text and no
    empty text. *)
Definition table_ok (responses : gmap (list N) (list N)) : Prop :=
  map_Forall (fun (_ : list N) (t : list N) => t <> []) responses /\
  is_Some (responses !! py "default").

(** The table [_get_simple_answer] reads for a language. *)
Definition responses_for (simple_responses : gmap (list N) (gmap (list N) (list N)))
    (language : Key) : gmap (list N) (list N) :=
  default (default ∅ (simple_responses !! py "en")) (simple_responses !! language).

(** What the route reads in a body that is an object:
    [data.get('question', '')] and [data.get('language', 'en')]. *)
Definition body_question (fields : gmap (list N) Json) : Json :=
  default (JString []) (fields !! py "question").

Definition body_language (fields : gmap (list N) Json) : Json :=
  default (JString (py "en")) (fields !! py "language").

End AppSpec.

(** * Properties *)

(** ** Facts about the string operations *)

Module PyStrFacts.
Import PyStr.
Section with_ucd.
Context `{UnicodeData}.

Lemma split_from_tokens (s cur w : str) :
  Forall (fun c => isspace c = false) cur ->
  w ∈ split_from cur s ->
  Forall (fun c => isspace c = false) w /\ w <> [].
Proof.
  revert cur. induction s as [|c s IH]; intros cur Hcur Hw; simpl in Hw.
  - destruct cur; [by apply elem_of_nil in Hw|].
    apply list_elem_of_singleton in Hw. by subst.
  - destruct (isspace c) eqn:Hc.
    + destruct cur as [|c0 cur].
      * by apply (IH []).
      * apply elem_of_cons in Hw as [->|Hw]; [done|]. by apply (IH []).
    + apply (IH (cur ++ [c])); [|done].
      apply Forall_app; split; [done|]. by constructor.
Qed.

(** The words [s.split()] yields hold no white space and are not empty. *)
Lemma split_tokens (s w : str) :
  w ∈ split s -> Forall (fun c => isspace c = false) w /\ w <> [].
Proof. apply split_from_tokens. constructor. Qed.

Lemma split_from_single (w cur : str) :
  Forall (fun c => isspace c = false) w ->
  cur ++ w <> [] ->
  split_from cur w = [cur ++ w].
Proof.
  revert cur. induction w as [|c w IH]; intros cur Hw Hne; simpl.
  - rewrite app_nil_r in *. by destruct cur.
  - inversion Hw as [|? ? Hc Hw']; subst. rewrite Hc.
    rewrite IH; [|done|].
    + by rewrite <- app_assoc.
    + rewrite <- app_assoc. done.
Qed.

(** A text without white space is its own single word. *)
Lemma split_single (w : str) :
  Forall (fun c => isspace c = false) w -> w <> [] -> split w = [w].
Proof. intros Hw Hne. by apply (split_from_single w []). Qed.

End with_ucd.
End PyStrFacts.

(** ** [SequenceMatcher]: the loops stop by themselves *)

Module DifflibFacts.
Import Difflib DifflibSpec.
Local Open Scope nat_scope.
Section with_elements.
Context {A : Type} `{EqDecision A}.
Implicit Types (a b : list A) (m : Match).

Lemma scan_row_bounds (alo blo bhi i : nat) (j2len : gmap nat nat) (js : list nat)
    (best : Match) (newj2len : gmap nat nat) :
  alo <= i ->
  (forall j v, j2len !! j = Some v -> v <= i - alo) ->
  alo <= m_a best /\ m_a best + m_size best <= i + 1 ->
  (forall j v, newj2len !! j = Some v -> v <= i + 1 - alo) ->
  let st := scan_row blo bhi i j2len js (best, newj2len) in
  (alo <= m_a st.1 /\ m_a st.1 + m_size st.1 <= i + 1) /\
  (forall j v, st.2 !! j = Some v -> v <= i + 1 - alo).
Proof.
  intros Hi Hold. revert best newj2len.
  induction js as [|j js IH]; intros best newj2len Hbest Hnew; simpl; [done|].
  destruct (j <? blo); [by apply IH|].
  destruct (bhi <=? j); [done|].
  assert (j2len_get j2len j <= i - alo) as Hk.
  { unfold j2len_get. destruct j as [|j']; [lia|].
    destruct (j2len !! j') as [v|] eqn:Hv; simpl; [by apply (Hold j')|lia]. }
  apply IH.
  - destruct (m_size best <? j2len_get j2len j + 1); simpl; lia.
  - intros j0 v. destruct (decide (j = j0)) as [->|Hne].
    + rewrite lookup_insert_eq. intros [= <-]. lia.
    + rewrite lookup_insert_ne by done. apply Hnew.
Qed.

Lemma scan_rows_fold_bounds (a b : list A) (alo blo bhi n start : nat)
    (st : Match * gmap nat nat) :
  alo <= start ->
  (alo <= m_a st.1 /\ m_a st.1 + m_size st.1 <= start) ->
  (forall j v, st.2 !! j = Some v -> v <= start - alo) ->
  let st' :=
    fold_left
      (fun (st : Match * gmap nat nat) i =>
         let '(best, j2len) := st in
         let js := match a !! i with Some x => b2j b x | None => [] end in
         scan_row blo bhi i j2len js (best, ∅))
      (seq start n) st in
  alo <= m_a st'.1 /\ m_a st'.1 + m_size st'.1 <= start + n.
Proof.
  revert start st. induction n as [|n IH]; intros start [best j2len] Hstart Hbest Hlen;
    simpl in *; [lia|].
  match goal with |- context [scan_row ?blo ?bhi ?i ?j2l ?js ?s] =>
    pose proof (scan_row_bounds alo blo bhi start j2l js best ∅ Hstart Hlen) as Hrow
  end.
  destruct Hrow as [Hbest' Hlen']; [lia| |].
  { intros j v. by rewrite lookup_empty. }
  replace (start + S n) with (S start + n) by lia.
  apply IH; [lia| |].
  - replace (S start) with (start + 1) by lia. exact Hbest'.
  - replace (S start - alo) with (start + 1 - alo) by lia. exact Hlen'.
Qed.

Lemma scan_rows_bounds (a b : list A) (alo ahi blo bhi : nat) :
  alo <= ahi ->
  let m := scan_rows a b alo ahi blo bhi in
  alo <= m_a m /\ m_a m + m_size m <= ahi.
Proof.
  intros Hle m.
  pose proof (scan_rows_fold_bounds a b alo blo bhi (ahi - alo) alo
                ({| m_a := alo; m_b := blo; m_size := 0 |}, ∅)) as Hfold.
  cbv zeta in Hfold. replace (alo + (ahi - alo)) with ahi in Hfold by lia.
  apply Hfold; simpl; [lia..|].
  intros j v. by rewrite lookup_empty.
Qed.

Lemma extend_left_bounds (fuel : nat) (a b : list A) (alo blo : nat) (m : Match) :
  alo <= m_a m ->
  let m' := extend_left fuel a b alo blo m in
  alo <= m_a m' /\ m_a m' + m_size m' = m_a m + m_size m.
Proof.
  revert m. induction fuel as [|fuel IH]; intros m Hlo; simpl; [done|].
  destruct (_ && _ && _) eqn:Hcond; [|done].
  apply andb_prop in Hcond as [[Ha%Nat.ltb_lt _]%andb_prop _].
  destruct (IH {| m_a := m_a m - 1; m_b := m_b m - 1; m_size := m_size m + 1 |})
    as [? Hsum]; simpl in *; lia.
Qed.

Lemma extend_right_bounds (fuel : nat) (a b : list A) (ahi bhi : nat) (m : Match) :
  m_a m + m_size m <= ahi ->
  let m' := extend_right fuel a b ahi bhi m in
  m_a m' = m_a m /\ m_a m' + m_size m' <= ahi.
Proof.
  revert m. induction fuel as [|fuel IH]; intros m Hhi; simpl; [done|].
  destruct (_ && _ && _) eqn:Hcond; [|done].
  apply andb_prop in Hcond as [[Ha%Nat.ltb_lt _]%andb_prop _].
  destruct (IH {| m_a := m_a m; m_b := m_b m; m_size := m_size m + 1 |})
    as [? ?]; simpl in *; lia.
Qed.

(** The block [find_longest_match] returns lies in the range of [a] it was
    asked about. *)
Lemma find_longest_match_bounds (a b : list A) (alo ahi blo bhi : nat) :
  alo <= ahi ->
  let m := find_longest_match a b alo ahi blo bhi in
  alo <= m_a m /\ m_a m + m_size m <= ahi.
Proof.
  intros Hle. unfold find_longest_match.
  destruct (scan_rows_bounds a b alo ahi blo bhi Hle) as [Hlo Hhi].
  set (m0 := scan_rows a b alo ahi blo bhi) in *.
  destruct (extend_left_bounds (m_a m0) a b alo blo m0 Hlo) as [Hlo1 Hsum1].
  set (m1 := extend_left (m_a m0) a b alo blo m0) in *.
  destruct (extend_right_bounds (length a) a b ahi bhi m1) as [Heq Hhi2]; lia.
Qed.

Lemma extend_left_enough (extra : nat) (a b : list A) (alo blo : nat) (m : Match) :
  extend_left (m_a m + extra) a b alo blo m = extend_left (m_a m) a b alo blo m.
Proof.
  remember (m_a m) as n eqn:Hn. revert m Hn.
  induction n as [|n IH]; intros m Hn.
  - destruct extra as [|extra]; simpl; [done|].
    rewrite <- Hn. replace (alo <? 0) with false by (symmetry; apply Nat.ltb_ge; lia).
    done.
  - simpl. destruct (_ && _ && _); [|done].
    apply IH. simpl. lia.
Qed.

Lemma extend_right_enough (fuel extra : nat) (a b : list A) (ahi bhi : nat) (m : Match) :
  length a - (m_a m + m_size m) <= fuel ->
  extend_right (fuel + extra) a b ahi bhi m = extend_right fuel a b ahi bhi m.
Proof.
  revert m. induction fuel as [|fuel IH]; intros m Hfuel.
  - destruct extra as [|extra]; simpl; [done|].
    destruct (_ && _ && bool_decide _) eqn:Hcond; [|done].
    apply andb_prop in Hcond as [_ Hsome%bool_decide_eq_true_1].
    destruct Hsome as [[x Hx] _]. apply lookup_lt_Some in Hx. lia.
  - simpl. destruct (_ && _ && bool_decide _) eqn:Hcond; [|done].
    apply andb_prop in Hcond as [_ Hsome%bool_decide_eq_true_1].
    destruct Hsome as [[x Hx] _]. apply lookup_lt_Some in Hx.
    apply IH. simpl. lia.
Qed.

Lemma blocks_loop_done (fuel : nat) (a b : list A) (acc : list Match) :
  blocks_loop fuel a b [] acc = acc.
Proof. by destruct fuel. Qed.

Lemma blocks_loop_enough (fuel extra : nat) (a b : list A)
    (queue : list (nat * nat * nat * nat)) (acc : list Match) :
  queue_weight queue <= fuel ->
  Forall range_ok queue ->
  blocks_loop (fuel + extra) a b queue acc = blocks_loop fuel a b queue acc.
Proof.
  revert queue acc. induction fuel as [|fuel IH]; intros queue acc Hw Hok.
  - destruct queue as [|r queue]; [by rewrite !blocks_loop_done|].
    simpl in Hw. unfold range_weight in Hw. lia.
  - destruct queue as [|[[[alo ahi] blo] bhi] queue]; [done|].
    inversion Hok as [|? ? Hr Hok']; subst.
    unfold range_ok in Hr. simpl in Hr, Hw.
    unfold range_weight in Hw. simpl in Hw.
    destruct (find_longest_match_bounds a b alo ahi blo bhi Hr) as [Hlo Hhi].
    simpl.
    set (x := find_longest_match a b alo ahi blo bhi) in *.
    destruct (m_size x =? 0) eqn:Hk.
    + apply IH; [lia|done].
    + apply Nat.eqb_neq in Hk.
      apply IH.
      * destruct ((alo <? m_a x) && (blo <? m_b x)) eqn:Hleft;
          destruct ((m_a x + m_size x <? ahi) && (m_b x + m_size x <? bhi)) eqn:Hright;
          simpl; unfold range_weight; simpl; lia.
      * destruct ((alo <? m_a x) && (blo <? m_b x)) eqn:Hleft;
          destruct ((m_a x + m_size x <? ahi) && (m_b x + m_size x <? bhi)) eqn:Hright;
          repeat (apply Forall_cons; split); try done; unfold range_ok; simpl.
        all: try (apply andb_prop in Hleft as [?%Nat.ltb_lt _]).
        all: try (apply andb_prop in Hright as [?%Nat.ltb_lt _]).
        all: lia.
Qed.

(** [get_matching_blocks] empties its work list: more iterations allowed
    change no block, nor do more iterations allowed to the two loops that
    extend a block. *)
Theorem sequence_matcher_loops_complete (a b : list A) (extra : nat) :
  blocks_loop (2 * length a + 1 + extra) a b [(0, length a, 0, length b)] [] =
    get_matching_blocks a b /\
  (forall alo blo m,
     extend_left (m_a m + extra) a b alo blo m = extend_left (m_a m) a b alo blo m) /\
  (forall ahi bhi m,
     extend_right (length a + extra) a b ahi bhi m = extend_right (length a) a b ahi bhi m).
Proof.
  split; [|split].
  - apply blocks_loop_enough.
    + simpl. unfold range_weight. simpl. lia.
    + repeat constructor. unfold range_ok. simpl. lia.
  - intros. apply extend_left_enough.
  - intros. apply extend_right_enough. lia.
Qed.

End with_elements.
End DifflibFacts.

(** ** Normalisation reaches a fixed point *)

Module NormalizerFacts.
Import PyStr Normalizer NormalForm.
Section with_ucd.
Context `{UnicodeData}.

(** *** White space *)

Lemma spaced_weaken (s : str) : spaced true s = true -> spaced false s = true.
Proof. destruct s as [|c s]; simpl; [done|]. by destruct (isspace c). Qed.

Lemma collapse_from_spaced (p : bool) (s : str) :
  spaced p s = true -> collapse_from p s = s.
Proof.
  revert p. induction s as [|c s IH]; intros p Hs; simpl in *; [done|].
  destruct (isspace c).
  - destruct p; simpl in Hs; [done|].
    apply andb_true_iff in Hs as [Hc Hs]. apply N.eqb_eq in Hc as ->.
    by rewrite IH.
  - by rewrite IH.
Qed.

Lemma lstrip_spaced (s : str) : spaced true s = true -> lstrip s = s.
Proof. destruct s as [|c s]; simpl; [done|]. by destruct (isspace c). Qed.

Lemma rstrip_cons (c : N) (s : str) :
  rstrip (c :: s) =
  match rstrip s with [] => if isspace c then [] else [c] | _ => c :: rstrip s end.
Proof. reflexivity. Qed.

Lemma rstrip_spaced (p : bool) (s : str) :
  spaced p s = true -> s <> [] -> rstrip s = s.
Proof.
  revert p. induction s as [|c s IH]; intros p Hs Hne; [done|].
  rewrite rstrip_cons. simpl in Hs. destruct (isspace c) eqn:Hc.
  - apply andb_true_iff in Hs as [_ Hs].
    assert (s <> []) as Hne' by (by destruct s).
    rewrite (IH true Hs Hne'). by destruct s.
  - destruct s as [|d s]; [by simpl|].
    rewrite (IH false Hs); done.
Qed.

Lemma well_spaced_fixed (s : str) :
  well_spaced s -> strip (collapse_spaces s) = s.
Proof.
  intros [->|Hs]; [done|]. unfold strip, collapse_spaces.
  rewrite (collapse_from_spaced false) by by apply spaced_weaken.
  rewrite lstrip_spaced by done.
  apply (rstrip_spaced true); [done|]. by destruct s.
Qed.

Lemma collapse_from_single_spaced (p : bool) (s : str) :
  isspace SPACE = true -> single_spaced p (collapse_from p s) = true.
Proof.
  intros Hsp. revert p. induction s as [|c s IH]; intros p; simpl; [done|].
  destruct (isspace c) eqn:Hc.
  - destruct p; [apply IH|].
    cbn [single_spaced negb andb]. rewrite Hsp, N.eqb_refl. apply IH.
  - cbn [single_spaced]. rewrite Hc. apply IH.
Qed.

Lemma lstrip_single_spaced (p : bool) (s : str) :
  single_spaced p s = true -> single_spaced true (lstrip s) = true.
Proof.
  revert p. induction s as [|c s IH]; intros p Hs; simpl in *; [done|].
  destruct (isspace c) eqn:Hc.
  - apply andb_true_iff in Hs as [_ Hs]. by apply (IH true).
  - simpl. by rewrite Hc.
Qed.

Lemma rstrip_single_spaced (p : bool) (s : str) :
  single_spaced p s = true -> rstrip s = [] \/ spaced p (rstrip s) = true.
Proof.
  revert p. induction s as [|c s IH]; intros p Hs; [by left|].
  rewrite rstrip_cons. simpl in Hs. destruct (isspace c) eqn:Hc.
  - apply andb_true_iff in Hs as [Hpc Hs].
    destruct (IH true Hs) as [->|Hr]; [by left|]. right.
    destruct (rstrip s) as [|d r] eqn:Hrs; [done|].
    change (spaced p (c :: d :: r)) with
      (if isspace c then negb p && (c =? SPACE) && spaced true (d :: r)
       else spaced false (d :: r)).
    rewrite Hc, Hpc. done.
  - right. destruct (IH false Hs) as [->|Hr].
    + simpl. by rewrite Hc.
    + destruct (rstrip s) as [|d r] eqn:Hrs; [simpl; by rewrite Hc|].
      change (spaced p (c :: d :: r)) with
        (if isspace c then negb p && (c =? SPACE) && spaced true (d :: r)
         else spaced false (d :: r)).
      by rewrite Hc.
Qed.

Lemma strip_collapse_well_spaced (s : str) :
  isspace SPACE = true -> well_spaced (strip (collapse_spaces s)).
Proof.
  intros Hsp. unfold strip, collapse_spaces.
  apply (rstrip_single_spaced true), (lstrip_single_spaced false).
  by apply collapse_from_single_spaced.
Qed.

Lemma elem_of_collapse_from (p : bool) (s : str) (c : N) :
  c ∈ collapse_from p s -> c = SPACE \/ (c ∈ s /\ isspace c = false).
Proof.
  revert p. induction s as [|d s IH]; intros p Hc; simpl in Hc.
  - by apply elem_of_nil in Hc.
  - destruct (isspace d) eqn:Hd.
    + destruct p.
      * destruct (IH _ Hc) as [?|[? ?]]; [by left|right]. split; [by right|done].
      * apply elem_of_cons in Hc as [->|Hc]; [by left|].
        destruct (IH _ Hc) as [?|[? ?]]; [by left|right]. split; [by right|done].
    + apply elem_of_cons in Hc as [->|Hc].
      * right. split; [by left|done].
      * destruct (IH _ Hc) as [?|[? ?]]; [by left|right]. split; [by right|done].
Qed.

Lemma elem_of_lstrip (s : str) (c : N) : c ∈ lstrip s -> c ∈ s.
Proof.
  induction s as [|d s IH]; simpl; [done|].
  destruct (isspace d); [|done]. intros Hc. right. by apply IH.
Qed.

Lemma elem_of_rstrip (s : str) (c : N) : c ∈ rstrip s -> c ∈ s.
Proof.
  induction s as [|d s IH]; [done|]. rewrite rstrip_cons.
  destruct (rstrip s) as [|e r].
  - destruct (isspace d); [by intros ?%elem_of_nil|].
    intros ->%list_elem_of_singleton. by left.
  - intros [->|Hc]%elem_of_cons; [by left|]. right. by apply IH.
Qed.

Lemma elem_of_strip_collapse (s : str) (c : N) :
  c ∈ strip (collapse_spaces s) -> c = SPACE \/ (c ∈ s /\ isspace c = false).
Proof.
  intros Hc. by apply elem_of_rstrip, elem_of_lstrip, elem_of_collapse_from in Hc.
Qed.

(** *** Decomposition and combining marks *)

Lemma elem_of_insert_mark (c d : N) (s : str) :
  d ∈ insert_mark c s <-> d = c \/ d ∈ s.
Proof.
  induction s as [|e s IH]; simpl.
  - rewrite list_elem_of_singleton, elem_of_nil. tauto.
  - destruct ((0 <? combining e) && (combining e <? combining c)).
    + rewrite !elem_of_cons, IH. tauto.
    + rewrite !elem_of_cons. tauto.
Qed.

Lemma elem_of_canonical_order (d : N) (s : str) :
  d ∈ canonical_order s <-> d ∈ s.
Proof.
  induction s as [|c s IH]; simpl; [done|].
  rewrite elem_of_insert_mark, elem_of_cons, IH. tauto.
Qed.

Lemma insert_mark_starter (c : N) (s : str) :
  combining c = 0 -> insert_mark c s = c :: s.
Proof.
  intros Hc. destruct s as [|d s]; simpl; [done|].
  rewrite Hc. replace (combining d <? 0) with false by (symmetry; apply N.ltb_ge; lia).
  by rewrite andb_false_r.
Qed.

Lemma canonical_order_starters (s : str) :
  Forall (fun c => combining c = 0) s -> canonical_order s = s.
Proof.
  induction 1 as [|c s Hc Hs IH]; simpl; [done|].
  by rewrite IH, insert_mark_starter.
Qed.

Lemma strip_combining_starters (s : str) :
  Forall (fun c => combining c = 0) s -> strip_combining s = s.
Proof.
  induction 1 as [|c s Hc Hs IH]; [done|].
  unfold strip_combining in *. by rewrite filter_cons_True, IH.
Qed.

Lemma flat_map_decomposition_fixed (s : str) :
  Forall (fun c => decomposition c = [c]) s -> flat_map decomposition s = s.
Proof. induction 1 as [|c s Hc Hs IH]; simpl; [done|]. by rewrite Hc, IH. Qed.

Lemma sub_punctuation_fixed (s : str) :
  Forall (fun c => isword c || isspace c = true) s -> sub_punctuation s = s.
Proof.
  induction 1 as [|c s Hc Hs IH]; [done|].
  unfold sub_punctuation in *. simpl. by rewrite Hc, IH.
Qed.

(** After the first three steps, what is not white space is settled. *)
Lemma settled_after_sub (text : str) (c : N) :
  ucd_consistent ->
  c ∈ sub_punctuation (strip_combining (NFKD text)) ->
  isspace c = false ->
  settled c.
Proof.
  intros Hucd Hc Hns. destruct Hucd as [(_ & _ & Hsp & _) Hfull _ _].
  unfold sub_punctuation in Hc.
  apply list_elem_of_In, in_map_iff in Hc as (c0 & Hc0 & Hin).
  apply list_elem_of_In in Hin.
  destruct (isword c0 || isspace c0) eqn:Hw; [subst c0|congruence].
  unfold strip_combining in Hin. apply list_elem_of_filter in Hin as [Hcc Hin].
  unfold NFKD in Hin. apply (proj1 (elem_of_canonical_order _ _)) in Hin.
  apply list_elem_of_In, in_flat_map in Hin as (c1 & _ & Hin).
  apply list_elem_of_In in Hin.
  rewrite Hns, orb_false_r in Hw. repeat split; try done. by apply (Hfull c1).
Qed.

(** *** Lower-casing *)

Lemma lower_ucs4_images (before_rev after : str) (c d : N) :
  d ∈ lower_ucs4 before_rev c after -> d ∈ lower_images c.
Proof.
  unfold lower_ucs4, lower_images, handle_capital_sigma.
  destruct (c =? CAPITAL_SIGMA); [|done].
  intros ->%list_elem_of_singleton.
  match goal with |- (if ?b then _ else _) ∈ _ => destruct b end;
    rewrite !elem_of_cons; tauto.
Qed.

Lemma lower_ucs4_nonempty (before_rev after : str) (c : N) :
  lower_images c <> [] -> lower_ucs4 before_rev c after <> [].
Proof. unfold lower_ucs4, lower_images. by destruct (c =? CAPITAL_SIGMA). Qed.

Lemma lower_ucs4_caseless (before_rev after : str) (c : N) :
  caseless c -> lower_ucs4 before_rev c after = [c].
Proof.
  intros [Hc Hne]. unfold lower_ucs4.
  by apply N.eqb_neq in Hne as ->.
Qed.

Lemma spaced_words (p : bool) (w s : str) :
  Forall (fun c => isspace c = false) w -> w <> [] ->
  spaced p (w ++ s) = spaced false s.
Proof.
  intros Hw. revert p. induction Hw as [|c w Hc Hw IH]; intros p Hne; [done|].
  simpl. rewrite Hc. destruct w as [|d w]; [done|]. by apply IH.
Qed.

Lemma lower_from_tidy (before_rev s : str) :
  ucd_consistent ->
  Forall (fun c => c = SPACE \/ settled c) s ->
  Forall tidy (lower_from before_rev s).
Proof.
  intros Hucd Hs. revert before_rev.
  induction Hs as [|c s Hc Hs IH]; intros before_rev; simpl; [constructor|].
  apply Forall_app; split; [|apply IH].
  apply Forall_forall. intros d Hd. destruct Hc as [->|Hc].
  - left. unfold lower_ucs4 in Hd. simpl in Hd.
    destruct Hucd as [(_ & _ & _ & Hlow) _ _ _]. rewrite Hlow in Hd.
    by apply list_elem_of_singleton in Hd.
  - right. apply (lower_settled Hucd c); [done|]. by eapply lower_ucs4_images.
Qed.

Lemma lower_from_spaced (p : bool) (before_rev s : str) :
  ucd_consistent ->
  Forall (fun c => c = SPACE \/ settled c) s ->
  spaced p s = true ->
  spaced p (lower_from before_rev s) = true.
Proof.
  intros Hucd Hs. revert p before_rev.
  induction Hs as [|c s Hc Hs IH]; intros p before_rev Hsp; [done|].
  pose proof (space_inert Hucd) as (_ & _ & Hspace & Hlow).
  cbn [lower_from]. destruct Hc as [->|Hc].
  - unfold lower_ucs4. cbn [N.eqb SPACE CAPITAL_SIGMA]. simpl.
    fold SPACE. rewrite Hlow. simpl. simpl in Hsp. fold SPACE in Hsp.
    rewrite Hspace in *.
    apply andb_true_iff in Hsp as [Hp Hsp]. rewrite Hp. simpl. by apply IH.
  - simpl in Hsp. pose proof Hc as (Hw & Hns & Hcc & Hdec).
    rewrite Hns in Hsp. rewrite spaced_words.
    + by apply IH.
    + apply Forall_forall. intros d Hd. apply lower_ucs4_images in Hd.
      by destruct (lower_settled Hucd c d) as [(_ & ? & _) _].
    + apply lower_ucs4_nonempty. by apply (lower_nonempty Hucd).
Qed.

Lemma lower_from_fixed (before_rev s : str) :
  ucd_consistent ->
  Forall tidy s -> lower_from before_rev s = s.
Proof.
  intros Hucd Hs. revert before_rev.
  induction Hs as [|c s Hc Hs IH]; intros before_rev; simpl; [done|].
  rewrite IH. destruct Hc as [->|[_ Hc]].
  - unfold lower_ucs4. simpl. fold SPACE.
    by destruct (space_inert Hucd) as (_ & _ & _ & ->).
  - by rewrite lower_ucs4_caseless.
Qed.

(** *** The normal form and its fixed point *)

Lemma tidy_cases (c : N) :
  ucd_consistent -> tidy c ->
  decomposition c = [c] /\ combining c = 0 /\ isword c || isspace c = true.
Proof.
  intros Hucd [->|[(Hw & _ & Hcc & Hdec) _]].
  - destruct (space_inert Hucd) as (? & ? & -> & _). by rewrite orb_true_r.
  - by rewrite Hw.
Qed.

Lemma normalize_text_tidy (text : str) :
  ucd_consistent ->
  Forall tidy (normalize_text text) /\ well_spaced (normalize_text text).
Proof.
  intros Hucd. unfold normalize_text.
  set (t := sub_punctuation (strip_combining (NFKD text))).
  pose proof (space_inert Hucd) as (_ & _ & Hspace & _).
  assert (Forall (fun c => c = SPACE \/ settled c) (strip (collapse_spaces t))) as Hpre.
  { apply Forall_forall. intros c Hc.
    apply elem_of_strip_collapse in Hc as [->|[Hc Hns]]; [by left|right].
    by apply (settled_after_sub text). }
  split; [by apply lower_from_tidy|].
  destruct (strip_collapse_well_spaced t Hspace) as [Hnil|Hsp].
  - left. unfold lower. by rewrite Hnil.
  - right. by apply lower_from_spaced.
Qed.

Lemma normalize_text_fixed (text : str) :
  ucd_consistent ->
  Forall tidy text -> well_spaced text -> normalize_text text = text.
Proof.
  intros Hucd Htidy Hsp. unfold normalize_text, NFKD.
  assert (Forall (fun c => decomposition c = [c]) text) as Hdec.
  { eapply Forall_impl; [exact Htidy|]. intros c Hc. by apply tidy_cases. }
  assert (Forall (fun c => combining c = 0) text) as Hcc.
  { eapply Forall_impl; [exact Htidy|]. intros c Hc. by apply tidy_cases. }
  assert (Forall (fun c => isword c || isspace c = true) text) as Hw.
  { eapply Forall_impl; [exact Htidy|]. intros c Hc. by apply tidy_cases. }
  rewrite flat_map_decomposition_fixed, canonical_order_starters,
    strip_combining_starters, sub_punctuation_fixed, well_spaced_fixed by done.
  by apply lower_from_fixed.
Qed.

(** C8. Text normalisation is idempotent: normalising a normalised text
    changes nothing.  The character database enters through
    [ucd_consistent]. *)
Theorem normalize_text_idempotent (x : str) :
  ucd_consistent ->
  normalize_text (normalize_text x) = normalize_text x.
Proof.
  intros Hucd. destruct (normalize_text_tidy x Hucd) as [Htidy Hsp].
  by apply normalize_text_fixed.
Qed.

End with_ucd.
End NormalizerFacts.

(** ** The knowledge base: effects *)

Module KBFacts.
Import PyStr Normalizer KB KBSpec.
Section with_ucd.
Context `{UnicodeData}.

Lemma read_only_ret {A} (x : A) : read_only (mret x).
Proof. done. Qed.

Lemma read_only_get_self : read_only get_self.
Proof. done. Qed.

Lemma read_only_bind {A B} (m : KBM A) (f : A -> KBM B) :
  read_only m -> (forall x, read_only (f x)) -> read_only (m ≫= f).
Proof.
  intros Hm Hf self. unfold execM, mbind, KBM_bind.
  specialize (Hm self). unfold execM in Hm.
  destruct (m self) as [x self'] eqn:Hrun. simpl in Hm. subst self'.
  apply Hf.
Qed.

(** Running a read-only method and then another is running the second on
    the same object. *)
Lemma evalM_bind {A B} (m : KBM A) (f : A -> KBM B) (self : KnowledgeBase) :
  read_only m -> evalM (m ≫= f) self = evalM (f (evalM m self)) self.
Proof.
  intros Hm. unfold evalM, mbind, KBM_bind.
  specialize (Hm self). unfold execM in Hm.
  destruct (m self) as [x self'] eqn:Hrun. simpl in *. by subst.
Qed.

Lemma read_only_fmap {A B} (f : A -> B) (m : KBM A) :
  read_only m -> read_only (f <$> m).
Proof.
  intros Hm self. unfold execM, fmap, KBM_fmap.
  specialize (Hm self). unfold execM in Hm.
  destruct (m self) as [x self'] eqn:Hrun. exact Hm.
Qed.

Lemma evalM_fmap {A B} (f : A -> B) (m : KBM A) (self : KnowledgeBase) :
  evalM (f <$> m) self = f (evalM m self).
Proof. unfold evalM, fmap, KBM_fmap. destruct (m self) as [x self']. reflexivity. Qed.

(** Looking a text up as a language is looking it up. *)
Lemma lookup_Text {A} (mapping : gmap str A) (s : str) :
  mapping !! Text s = mapping !! s.
Proof. reflexivity. Qed.

Lemma lookup_NotText {A} (mapping : gmap str A) : mapping !! NotText = None.
Proof. reflexivity. Qed.

Lemma is_greeting_read_only (text : str) (language : Key) :
  read_only (is_greeting text language).
Proof. apply read_only_bind; [apply read_only_get_self|]. intros. apply read_only_ret. Qed.

Lemma is_help_request_read_only (text : str) (language : Key) :
  read_only (is_help_request text language).
Proof. apply read_only_bind; [apply read_only_get_self|]. intros. apply read_only_ret. Qed.

Lemma get_response_read_only (response_type : str) (language : Key) :
  read_only (get_response response_type language).
Proof. apply read_only_bind; [apply read_only_get_self|]. intros. apply read_only_ret. Qed.

Lemma search_by_patterns_read_only (question : str) (language : Key) :
  read_only (search_by_patterns question language).
Proof. apply read_only_bind; [apply read_only_get_self|]. intros. apply read_only_ret. Qed.

Lemma search_entries_read_only (question : str) (language : Key) :
  read_only (search_entries question language).
Proof.
  apply read_only_bind; [apply read_only_get_self|]. intros self. cbv beta zeta.
  destruct (keyword_matches _ _); [apply search_by_patterns_read_only|apply read_only_ret].
Qed.

Lemma get_answer_read_only (question : str) (language : Key) :
  read_only (get_answer question language).
Proof.
  unfold get_answer.
  destruct (strip question); [apply read_only_fmap, get_response_read_only|].
  apply read_only_bind; [apply is_greeting_read_only|]. intros [|].
  { apply read_only_fmap, get_response_read_only. }
  apply read_only_bind; [apply is_help_request_read_only|]. intros [|].
  { apply read_only_fmap, get_response_read_only. }
  apply read_only_bind; [apply search_entries_read_only|]. intros [|best_match matches].
  - apply read_only_fmap, get_response_read_only.
  - apply read_only_ret.
Qed.

(** C9. [get_answer] is deterministic and writes nothing: called twice in a
    row with the same question and language on any object, it returns the
    same answer both times, and the object (data, category list and keyword
    index) is after each call what it was before the first. *)
Theorem get_answer_deterministic (question language : str) (self : KnowledgeBase) :
  let first := get_answer question language self in
  let second := get_answer question language first.2 in
  first.1 = second.1 /\
  first.2 = self /\ second.2 = self /\
  data second.2 = data self /\
  categories second.2 = categories self /\
  keywords_index second.2 = keywords_index self.
Proof.
  intros first second.
  assert (first.2 = self) as H1 by apply (get_answer_read_only question language self).
  assert (second.2 = self) as H2.
  { unfold second. rewrite H1. apply (get_answer_read_only question language self). }
  rewrite H2. repeat split; try done.
  unfold second. by rewrite H1.
Qed.

(** What the read-only methods return, by the attributes they read. *)
Lemma evalM_get_response (response_type language : str) (self : KnowledgeBase) :
  evalM (get_response response_type language) self =
  let response_data := default ∅ (d_responses (data self) !! response_type) in
  default (default apology (response_data !! py "en")) (response_data !! language).
Proof. reflexivity. Qed.

Lemma evalM_search_by_patterns (question : str) (language : Key) (self : KnowledgeBase) :
  evalM (search_by_patterns question language) self =
  flat_map (category_pattern_hits question language) (categories_items (data self)).
Proof. reflexivity. Qed.

Lemma evalM_search_entries (question : str) (language : Key) (self : KnowledgeBase) :
  evalM (search_entries question language) self =
  match keyword_matches (keywords_index self) (split question) with
  | [] => evalM (search_by_patterns question language) self
  | matches => matches
  end.
Proof.
  unfold search_entries. rewrite evalM_bind by apply read_only_get_self.
  change (evalM get_self self) with self.
  by destruct (keyword_matches _ _).
Qed.

Lemma evalM_get_answer (question : str) (language : Key) (self : KnowledgeBase) :
  evalM (get_answer question language) self =
  match strip question with
  | [] => Some (evalM (get_response (py "not_found") language) self)
  | _ =>
    let question_normalized := normalize_text question in
    if evalM (is_greeting question_normalized language) self
    then Some (evalM (get_response (py "greetings") language) self)
    else if evalM (is_help_request question_normalized language) self
    then Some (evalM (get_response (py "help") language) self)
    else match evalM (search_entries question_normalized language) self with
         | best_match :: _ => answer_text (entry best_match) language
         | [] => Some (evalM (get_response (py "not_found") language) self)
         end
  end.
Proof.
  unfold get_answer. destruct (strip question); [apply evalM_fmap|]. cbv zeta.
  rewrite evalM_bind by apply is_greeting_read_only.
  destruct (evalM (is_greeting _ _) self); [apply evalM_fmap|].
  rewrite evalM_bind by apply is_help_request_read_only.
  destruct (evalM (is_help_request _ _) self); [apply evalM_fmap|].
  rewrite evalM_bind by apply search_entries_read_only.
  destruct (evalM (search_entries _ _) self); [apply evalM_fmap|reflexivity].
Qed.

(** ** The keyword index *)

Lemma index_of_postings_app (ps qs : list (str * Hit)) (idx : gmap str (list Hit)) :
  index_of_postings (ps ++ qs) idx = index_of_postings qs (index_of_postings ps idx).
Proof. apply fold_left_app. Qed.

Lemma index_entry_postings (category_id : str) (e : Entry) (idx : gmap str (list Hit)) :
  index_entry category_id idx e = index_of_postings (entry_postings category_id e) idx.
Proof.
  unfold index_entry, index_of_postings, entry_postings.
  revert idx. induction (e_keywords e) as [|k ks IH]; intros idx; simpl; [done|].
  apply IH.
Qed.

Lemma index_category_postings (item : str * Category) (idx : gmap str (list Hit)) :
  index_category idx item = index_of_postings (category_postings item) idx.
Proof.
  unfold index_category, category_postings.
  revert idx. induction (c_entries item.2) as [|e es IH]; intros idx; simpl; [done|].
  by rewrite index_of_postings_app, IH, index_entry_postings.
Qed.

Lemma index_items_postings (items : list (str * Category)) (idx : gmap str (list Hit)) :
  fold_left index_category items idx = index_of_postings (postings items) idx.
Proof.
  unfold postings.
  revert idx. induction items as [|item items IH]; intros idx; simpl; [done|].
  by rewrite index_of_postings_app, IH, index_category_postings.
Qed.

Lemma bucket_of_cons (p : str * Hit) (ps : list (str * Hit)) (key : str) :
  bucket_of (p :: ps) key =
  if decide (p.1 = key) then p.2 :: bucket_of ps key else bucket_of ps key.
Proof. unfold bucket_of. rewrite filter_cons. by destruct (decide (p.1 = key)). Qed.

Lemma bucket_of_app (ps qs : list (str * Hit)) (key : str) :
  bucket_of (ps ++ qs) key = bucket_of ps key ++ bucket_of qs key.
Proof. unfold bucket_of. by rewrite filter_app, map_app. Qed.

(** A bucket holds the postings of its key, in the order they were
    appended, after what it held before. *)
Lemma lookup_index_of_postings (ps : list (str * Hit)) (idx : gmap str (list Hit))
    (key : str) :
  index_of_postings ps idx !! key =
  match bucket_of ps key with
  | [] => idx !! key
  | bucket => Some (default [] (idx !! key) ++ bucket)
  end.
Proof.
  revert idx. induction ps as [|p ps IH]; intros idx; [done|].
  change (index_of_postings (p :: ps) idx)
    with (index_of_postings ps (index_append idx p.1 p.2)).
  rewrite IH, bucket_of_cons. unfold index_append.
  destruct (decide (p.1 = key)) as [->|Hne].
  - rewrite lookup_insert_eq. simpl.
    destruct (bucket_of ps key); [done|]. by rewrite <- app_assoc.
  - by rewrite lookup_insert_ne.
Qed.

Lemma init_keywords_index (src : Source) :
  keywords_index (KnowledgeBase_init src) =
  index_of_postings (postings (categories_items (data (KnowledgeBase_init src)))) ∅.
Proof.
  assert (forall d cs idx,
    keywords_index (execM build_search_index
                      {| data := d; categories := cs; keywords_index := idx |}) =
    index_of_postings (postings (categories_items d)) ∅ /\
    data (execM build_search_index
            {| data := d; categories := cs; keywords_index := idx |}) = d) as Hbuild.
  { intros d cs idx. unfold categories_items.
    destruct (d_categories d) as [items|] eqn:Hd.
    - unfold execM, build_search_index, mbind, KBM_bind, set_keywords_index, get_self.
      simpl. rewrite Hd. simpl. by rewrite index_items_postings.
    - unfold execM, build_search_index, mbind, KBM_bind, set_keywords_index, get_self.
      simpl. by rewrite Hd. }
  destruct src as [d| |]; unfold KnowledgeBase_init.
  - change (execM (_ ≫= _) blank) with
      (execM build_search_index
         {| data := d; categories := map fst (categories_items d);
            keywords_index := ∅ |}).
    destruct (Hbuild d (map fst (categories_items d)) ∅) as [-> ->]. done.
  - change (execM (_ ≫= _) blank) with
      (execM build_search_index
         {| data := default_data; categories := map fst (categories_items default_data);
            keywords_index := ∅ |}).
    destruct (Hbuild default_data (map fst (categories_items default_data)) ∅)
      as [-> ->]. done.
  - change (execM (_ ≫= _) blank) with
      (execM build_search_index
         {| data := empty_data; categories := []; keywords_index := ∅ |}).
    destruct (Hbuild empty_data [] ∅) as [-> ->]. done.
Qed.

Lemma init_lookup (src : Source) (key : str) :
  keywords_index (KnowledgeBase_init src) !! key =
  match bucket_of (postings (categories_items (data (KnowledgeBase_init src)))) key with
  | [] => None
  | bucket => Some bucket
  end.
Proof.
  rewrite init_keywords_index, lookup_index_of_postings, lookup_empty. done.
Qed.

(** No bucket of the index is empty. *)
Lemma init_bucket_nonempty (src : Source) (key : str) (bucket : list Hit) :
  keywords_index (KnowledgeBase_init src) !! key = Some bucket -> bucket <> [].
Proof.
  rewrite init_lookup. destruct (bucket_of _ _); [done|]. by intros [= <-].
Qed.

Lemma elem_of_entry_postings (category_id : str) (e : Entry) (p : str * Hit) :
  p ∈ entry_postings category_id e ->
  p.1 ∈ entry_keys e /\ p.2 = keyword_hit category_id e.
Proof.
  unfold entry_postings, entry_keys.
  intros (k & <- & Hk)%list_elem_of_In%in_map_iff. split; [|done].
  simpl. apply list_elem_of_In, in_map_iff. by exists k.
Qed.

(** Every hit filed in the index is the hit of an entry of the data. *)
Lemma elem_of_postings (items : list (str * Category)) (p : str * Hit) :
  p ∈ postings items ->
  exists item e, item ∈ items /\ e ∈ c_entries item.2 /\
                 p.1 ∈ entry_keys e /\ p.2 = keyword_hit item.1 e.
Proof.
  unfold postings, category_postings.
  intros (item & Hitem & Hp)%list_elem_of_In%in_flat_map.
  apply in_flat_map in Hp as (e & He & Hp).
  apply list_elem_of_In, elem_of_entry_postings in Hp as [? ?].
  exists item, e. repeat split; try done; by apply list_elem_of_In.
Qed.

Lemma elem_of_bucket_of (ps : list (str * Hit)) (key : str) (h : Hit) :
  h ∈ bucket_of ps key <-> (key, h) ∈ ps.
Proof.
  unfold bucket_of. rewrite list_elem_of_In, in_map_iff. split.
  - intros ([k h'] & <- & Hin). apply list_elem_of_In, list_elem_of_filter in Hin as [Hk Hin].
    simpl in *. by subst.
  - intros Hin. exists (key, h). split; [done|].
    apply list_elem_of_In, list_elem_of_filter. done.
Qed.

Lemma bucket_of_nil (ps : list (str * Hit)) (key : str) :
  (forall p, p ∈ ps -> p.1 <> key) -> bucket_of ps key = [].
Proof.
  intros Hne. unfold bucket_of. induction ps as [|p ps IH]; [done|].
  rewrite filter_cons. destruct (decide (p.1 = key)) as [Heq|_].
  - destruct (Hne p); [by left|done].
  - apply IH. intros q Hq. apply Hne. by right.
Qed.

(** ** The keyword pass *)

Lemma add_hit_nonempty (matches : list Hit) (h : Hit) : add_hit matches h <> [].
Proof.
  unfold add_hit. destruct (decide (h ∈ matches)) as [Hin|_].
  - intros ->. by apply elem_of_nil in Hin.
  - by destruct matches.
Qed.

Lemma add_hit_head (matches : list Hit) (h : Hit) :
  matches <> [] -> head (add_hit matches h) = head matches.
Proof. unfold add_hit. destruct (decide _); [done|]. by destruct matches. Qed.

Lemma fold_add_hit_head (bucket matches : list Hit) :
  matches <> [] -> head (fold_left add_hit bucket matches) = head matches.
Proof.
  revert matches. induction bucket as [|h bucket IH]; intros matches Hne; simpl; [done|].
  rewrite IH by apply add_hit_nonempty. by apply add_hit_head.
Qed.

Lemma fold_add_hit_nonempty (bucket matches : list Hit) :
  bucket <> [] \/ matches <> [] -> fold_left add_hit bucket matches <> [].
Proof.
  revert matches. induction bucket as [|h bucket IH]; intros matches Hne; simpl.
  - by destruct Hne.
  - apply IH. right. apply add_hit_nonempty.
Qed.

Lemma keyword_loop_nonempty (idx : gmap str (list Hit)) (ws : list str)
    (matches : list Hit) :
  matches <> [] -> keyword_loop idx ws matches <> [].
Proof.
  revert matches. induction ws as [|w ws IH]; intros matches Hne; simpl; [done|].
  apply IH. destruct (idx !! w); [|done]. apply fold_add_hit_nonempty. by right.
Qed.

Lemma keyword_loop_hit (idx : gmap str (list Hit)) (ws : list str)
    (matches : list Hit) (word : str) (bucket : list Hit) :
  word ∈ ws -> idx !! word = Some bucket -> bucket <> [] ->
  keyword_loop idx ws matches <> [].
Proof.
  intros Hin Hb Hne. revert matches.
  induction ws as [|w ws IH]; intros matches; [by apply elem_of_nil in Hin|].
  simpl. apply elem_of_cons in Hin as [<-|Hin].
  - rewrite Hb. apply keyword_loop_nonempty, fold_add_hit_nonempty. by left.
  - by apply IH.
Qed.

(** A key the words never equal can be dropped from the index. *)
Lemma keyword_loop_delete (idx : gmap str (list Hit)) (ws : list str)
    (matches : list Hit) (key : str) :
  key ∉ ws -> keyword_loop idx ws matches = keyword_loop (delete key idx) ws matches.
Proof.
  revert matches. induction ws as [|w ws IH]; intros matches Hnin; simpl; [done|].
  apply not_elem_of_cons in Hnin as [Hne Hnin].
  rewrite lookup_delete_ne by done. by apply IH.
Qed.

Lemma keyword_loop_sound (idx : gmap str (list Hit)) (ws : list str)
    (matches : list Hit) (h : Hit) :
  h ∈ keyword_loop idx ws matches ->
  h ∈ matches \/ exists word bucket, word ∈ ws /\ idx !! word = Some bucket /\ h ∈ bucket.
Proof.
  revert matches. induction ws as [|w ws IH]; intros matches Hh; simpl in Hh; [by left|].
  apply IH in Hh as [Hh|(word & bucket & ? & ? & ?)].
  - destruct (idx !! w) as [bucket|] eqn:Hb; [|by left].
    assert (forall b m, h ∈ fold_left add_hit b m -> h ∈ m \/ h ∈ b) as Hfold.
    { clear. induction b as [|x b IHb]; intros m Hm; simpl in Hm; [by left|].
      apply IHb in Hm as [Hm|Hm]; [|right; by right].
      unfold add_hit in Hm. destruct (decide (x ∈ m)); [by left|].
      apply elem_of_app in Hm as [?|Hx%list_elem_of_singleton]; [by left|].
      subst. right; by left. }
    apply Hfold in Hh as [?|?]; [by left|right].
    exists w, bucket. split; [by left|done].
  - right. exists word, bucket. split; [by right|done].
Qed.

(** ** The passes of [get_answer] *)

Lemma exceeds_threshold_spec (sim : Q) :
  exceeds_threshold sim = true <-> (threshold < sim)%Q.
Proof.
  unfold exceeds_threshold. rewrite negb_true_iff. split.
  - intros Hle. apply Qnot_le_lt. rewrite <- Qle_bool_iff. by rewrite Hle.
  - intros Hlt. destruct (Qle_bool sim threshold) eqn:Hle; [|done].
    apply Qle_bool_iff in Hle. by apply Qlt_not_le in Hlt.
Qed.

Lemma elem_of_entry_pattern_hits (question : str) (language : Key) (category_id : str)
    (e : Entry) (h : Hit) :
  h ∈ entry_pattern_hits question language category_id e <->
  exists pattern,
    pattern ∈ default [] (e_question e !! language) /\
    exceeds_threshold (Difflib.ratio question (normalize_text pattern)) = true /\
    h = {| category := category_id; entry_id := e_id e; entry := e;
           similarity := Some (Difflib.ratio question (normalize_text pattern)) |}.
Proof.
  unfold entry_pattern_hits. rewrite list_elem_of_In, in_flat_map. split.
  - intros (pattern & Hp & Hh). exists pattern. cbv zeta in Hh.
    destruct (exceeds_threshold _) eqn:Hsim; [|done].
    destruct Hh as [<-|[]]. by rewrite list_elem_of_In.
  - intros (pattern & Hp & Hsim & ->). exists pattern.
    rewrite <- list_elem_of_In. split; [done|]. cbv zeta. rewrite Hsim. by left.
Qed.

Lemma elem_of_search_by_patterns (self : KnowledgeBase) (question : str)
    (language : Key) (h : Hit) :
  h ∈ evalM (search_by_patterns question language) self <->
  exists item e, item ∈ categories_items (data self) /\ e ∈ c_entries item.2 /\
                 h ∈ entry_pattern_hits question language item.1 e.
Proof.
  rewrite evalM_search_by_patterns, list_elem_of_In, in_flat_map.
  unfold category_pattern_hits. split.
  - intros (item & Hitem & Hh). apply in_flat_map in Hh as (e & He & Hh).
    exists item, e. by rewrite !list_elem_of_In.
  - intros (item & e & Hitem & He & Hh). exists item.
    rewrite <- list_elem_of_In. split; [done|].
    apply in_flat_map. exists e. by rewrite <- !list_elem_of_In.
Qed.

(** C6. The fuzzy pass keeps a pair only when its similarity is strictly
    above 0.3: every hit it returns carries the similarity of the question
    to one of its entry's phrases for the language, and that similarity
    exceeds the threshold; when no phrase of any entry exceeds it the pass
    returns nothing; and when the pass is reached and returns nothing,
    [get_answer] gives the [not_found] response. *)
Theorem fuzzy_pass_threshold (self : KnowledgeBase) (question language : str) :
  (forall h, h ∈ evalM (search_by_patterns question language) self ->
     exists item pattern,
       item ∈ categories_items (data self) /\
       entry h ∈ c_entries item.2 /\
       pattern ∈ default [] (e_question (entry h) !! language) /\
       similarity h = Some (Difflib.ratio question (normalize_text pattern)) /\
       (threshold < Difflib.ratio question (normalize_text pattern))%Q) /\
  ((forall item e pattern,
      item ∈ categories_items (data self) -> e ∈ c_entries item.2 ->
      pattern ∈ default [] (e_question e !! language) ->
      (Difflib.ratio question (normalize_text pattern) <= threshold)%Q) ->
   evalM (search_by_patterns question language) self = []) /\
  (forall raw,
     question = normalize_text raw ->
     strip raw <> [] ->
     evalM (is_greeting question language) self = false ->
     evalM (is_help_request question language) self = false ->
     keyword_matches (keywords_index self) (split question) = [] ->
     evalM (search_by_patterns question language) self = [] ->
     evalM (get_answer raw language) self =
     Some (evalM (get_response (py "not_found") language) self)).
Proof.
  split; [|split].
  - intros h (item & e & Hitem & He & Hh)%elem_of_search_by_patterns.
    apply elem_of_entry_pattern_hits in Hh as (pattern & Hp & Hsim & ->).
    exists item, pattern. simpl. repeat split; try done.
    by apply exceeds_threshold_spec.
  - intros Hlow. apply elem_of_nil_inv. intros h Hh.
    apply elem_of_search_by_patterns in Hh as (item & e & Hitem & He & Hh).
    apply elem_of_entry_pattern_hits in Hh as (pattern & Hp & Hsim & _).
    apply exceeds_threshold_spec in Hsim.
    by apply Qlt_not_le in Hsim; apply Hsim, (Hlow item e).
  - intros raw -> Hraw Hg Hh Hk Hf. rewrite evalM_get_answer.
    destruct (strip raw); [done|]. cbv zeta.
    by rewrite Hg, Hh, evalM_search_entries, Hk, Hf.
Qed.

(** C5. When a word of the normalised question is a key of the index, what
    [search_entries] returns is what the keyword loop collected, a
    non-empty list computed from the index and the words alone; the fuzzy
    pass has no part in it.  Past the greeting and help checks, the answer
    is that of the first hit the loop collected. *)
Theorem keyword_pass_takes_precedence (src : Source) (question language word : str) :
  let self := KnowledgeBase_init src in
  let question_normalized := normalize_text question in
  word ∈ split question_normalized ->
  is_Some (keywords_index self !! word) ->
  evalM (search_entries question_normalized language) self =
    keyword_matches (keywords_index self) (split question_normalized) /\
  keyword_matches (keywords_index self) (split question_normalized) <> [] /\
  (strip question <> [] ->
   evalM (is_greeting question_normalized language) self = false ->
   evalM (is_help_request question_normalized language) self = false ->
   exists best_match rest,
     keyword_matches (keywords_index self) (split question_normalized) =
       best_match :: rest /\
     evalM (get_answer question language) self =
       answer_text (entry best_match) language).
Proof.
  intros self q Hword [bucket Hbucket].
  assert (keyword_matches (keywords_index self) (split q) <> []) as Hne.
  { apply (keyword_loop_hit _ _ _ word bucket); [done..|].
    by apply (init_bucket_nonempty src word). }
  assert (evalM (search_entries q language) self =
          keyword_matches (keywords_index self) (split q)) as Hsearch.
  { rewrite evalM_search_entries. by destruct (keyword_matches _ _). }
  repeat split; [done..|].
  intros Hraw Hg Hh.
  destruct (keyword_matches (keywords_index self) (split q)) as [|best rest] eqn:Hk;
    [done|].
  exists best, rest. split; [done|].
  rewrite evalM_get_answer. destruct (strip question); [done|]. cbv zeta.
  fold q. by rewrite Hg, Hh, Hsearch.
Qed.

(** C10. A key of the index that holds white space is out of reach of the
    keyword loop: no word of any question equals it, and the loop returns
    the same matches from the index with that key removed. *)
Theorem multiword_keyword_unreachable (idx : gmap str (list Hit)) (key question : str) :
  (exists c, c ∈ key /\ isspace c = true) ->
  (key ∉ split question) /\
  keyword_matches idx (split question) = keyword_matches (delete key idx) (split question).
Proof.
  intros (c & Hc & Hsp).
  assert (key ∉ split question) as Hnin.
  { intros Hin. apply PyStrFacts.split_tokens in Hin as [Hall _].
    rewrite Forall_forall in Hall. specialize (Hall c Hc). congruence. }
  split; [done|]. by apply (keyword_loop_delete idx _ []).
Qed.

(** C7, as the code has it.  A question that is empty or white space only
    as it is given (before any normalisation) gets the [not_found]
    response from the guard at the head of [get_answer]: the answer is read
    from the responses table alone, whatever the trigger phrases, the
    entries and the index hold. *)
Theorem blank_question_not_found (self : KnowledgeBase) (question language : str) :
  strip question = [] ->
  evalM (get_answer question language) self =
    Some (evalM (get_response (py "not_found") language) self) /\
  (forall other : KnowledgeBase,
     d_responses (data other) = d_responses (data self) ->
     evalM (get_answer question language) other =
     evalM (get_answer question language) self).
Proof.
  intros Hblank. split.
  - rewrite evalM_get_answer. by rewrite Hblank.
  - intros other Hresp. rewrite !evalM_get_answer, Hblank, !evalM_get_response.
    by rewrite Hresp.
Qed.

(** ** Answers *)





(** The hits [search_entries] returns are hits of entries of the data. *)
Lemma search_entries_sound (src : Source) (question : str) (language : Key) (h : Hit) :
  let self := KnowledgeBase_init src in
  h ∈ evalM (search_entries question language) self ->
  exists item, item ∈ categories_items (data self) /\ entry h ∈ c_entries item.2.
Proof.
  intros self Hh. rewrite evalM_search_entries in Hh.
  destruct (keyword_matches (keywords_index self) (split question)) as [|m ms] eqn:Hk.
  - apply elem_of_search_by_patterns in Hh as (item & e & Hitem & He & Hh).
    apply elem_of_entry_pattern_hits in Hh as (pattern & _ & _ & ->).
    by exists item.
  - rewrite <- Hk in Hh. unfold keyword_matches in Hh.
    apply (keyword_loop_sound _ _ []) in Hh
      as [Hh|(word & bucket & _ & Hb & Hh)]; [by apply elem_of_nil in Hh|].
    unfold self in Hb. rewrite init_lookup in Hb.
    destruct (bucket_of _ word) as [|b bs] eqn:Hbucket; [done|].
    injection Hb as <-. rewrite <- Hbucket in Hh.
    apply elem_of_bucket_of, elem_of_postings in Hh
      as (item & e & Hitem & He & _ & Hhit).
    simpl in Hhit. subst h. by exists item.
Qed.



Lemma postings_app (xs ys : list (str * Category)) :
  postings (xs ++ ys) = postings xs ++ postings ys.
Proof. apply flat_map_app. Qed.

Lemma bucket_of_entry_postings (category_id : str) (e : Entry) (k key : str) :
  k ∈ e_keywords e -> normalize_text (lower k) = key ->
  exists rest, bucket_of (entry_postings category_id e) key =
               keyword_hit category_id e :: rest.
Proof.
  intros Hk Hkey.
  assert (keyword_hit category_id e ∈ bucket_of (entry_postings category_id e) key) as Hin.
  { apply elem_of_bucket_of. unfold entry_postings.
    apply list_elem_of_In, in_map_iff. exists k. rewrite Hkey.
    split; [done|]. by apply list_elem_of_In. }
  destruct (bucket_of _ key) as [|h rest] eqn:Hb; [by apply elem_of_nil in Hin|].
  exists rest. f_equal.
  assert (h ∈ bucket_of (entry_postings category_id e) key) as Hh
    by (rewrite Hb; by left).
  apply elem_of_bucket_of, elem_of_entry_postings in Hh as [_ Hh]. done.
Qed.

(** The bucket of a key starts with the first entry, in iteration order,
    that has a keyword filed under it. *)
Lemma bucket_of_first (items : list (str * Category)) (i j : nat)
    (category_id : str) (cat : Category) (e : Entry) (k key : str) :
  items !! i = Some (category_id, cat) ->
  c_entries cat !! j = Some e ->
  k ∈ e_keywords e -> normalize_text (lower k) = key ->
  Forall (fun e' => key ∉ entry_keys e') (entries_before items i j) ->
  exists rest, bucket_of (postings items) key = keyword_hit category_id e :: rest.
Proof.
  intros Hi Hj Hk Hkey Hbefore. unfold entries_before in Hbefore. rewrite Hi in Hbefore.
  apply Forall_app in Hbefore as [Hcats Hents]. simpl in Hents.
  rewrite Forall_forall in Hcats, Hents.
  rewrite <- (take_drop_middle items i _ Hi), postings_app, bucket_of_app.
  rewrite (bucket_of_nil (postings (take i items))).
  2:{ intros p (item & e' & Hitem & He' & Hkeys & _)%elem_of_postings Heq.
      rewrite Heq in Hkeys. apply (Hcats e'); [|done].
      apply list_elem_of_In, in_flat_map. exists item. by rewrite <- !list_elem_of_In. }
  change (postings ((category_id, cat) :: drop (S i) items))
    with (category_postings (category_id, cat) ++ postings (drop (S i) items)).
  rewrite bucket_of_app. unfold category_postings. simpl.
  rewrite <- (take_drop_middle (c_entries cat) j _ Hj), flat_map_app, bucket_of_app.
  rewrite (bucket_of_nil (flat_map _ (take j _))).
  2:{ intros p (e' & He' & Hp)%list_elem_of_In%in_flat_map Heq.
      apply list_elem_of_In, elem_of_entry_postings in Hp as [Hkeys _].
      rewrite Heq in Hkeys. apply (Hents e'); [|done]. by apply list_elem_of_In. }
  simpl. rewrite bucket_of_app.
  destruct (bucket_of_entry_postings category_id e k key Hk Hkey) as [rest ->].
  simpl. eauto.
Qed.

(** C2, as the code has it.  Let [k] be a keyword of an entry [E] whose
    normalised form is one word, the same whether or not [k] is lower-cased
    first, and holds no greeting or help trigger; let [E] be the first
    entry, in iteration order, with a keyword filed under that word.  Then
    the question [k] is answered by the keyword pass with [E]'s answer. *)
Theorem keyword_question_answer (src : Source) (i j : nat) (category_id : str)
    (cat : Category) (E : Entry) (k language : str) :
  let self := KnowledgeBase_init src in
  let items := categories_items (data self) in
  let w := normalize_text k in
  items !! i = Some (category_id, cat) ->
  c_entries cat !! j = Some E ->
  k ∈ e_keywords E ->
  strip k <> [] ->
  w <> [] ->
  Forall (fun c => isspace c = false) w ->
  normalize_text (lower k) = w ->
  Forall (fun e => w ∉ entry_keys e) (entries_before items i j) ->
  evalM (is_greeting w language) self = false ->
  evalM (is_help_request w language) self = false ->
  (exists rest,
     keyword_matches (keywords_index self) (split w) = keyword_hit category_id E :: rest /\
     evalM (search_entries w language) self = keyword_hit category_id E :: rest) /\
  evalM (get_answer k language) self = answer_text E language.
Proof.
  intros self items w Hi Hj Hk Hraw Hne Hword Hkey Hfirst Hg Hh.
  destruct (bucket_of_first items i j category_id cat E k w Hi Hj Hk Hkey Hfirst)
    as [bucket Hbucket].
  assert (exists rest, keyword_matches (keywords_index self) (split w) =
                       keyword_hit category_id E :: rest) as [rest Hmatches].
  { rewrite PyStrFacts.split_single by done. unfold keyword_matches. simpl.
    unfold self. rewrite init_lookup. fold self. fold items. rewrite Hbucket. simpl.
    pose proof (fold_add_hit_head bucket (add_hit [] (keyword_hit category_id E))
                  (add_hit_nonempty _ _)) as Hhead.
    destruct (fold_left add_hit bucket _) as [|m ms]; [done|].
    simpl in Hhead. injection Hhead as ->. by exists ms. }
  assert (evalM (search_entries w language) self = keyword_hit category_id E :: rest)
    as Hsearch by (by rewrite evalM_search_entries, Hmatches).
  split; [by exists rest|].
  rewrite evalM_get_answer. destruct (strip k); [done|]. cbv zeta. fold w.
  by rewrite Hg, Hh, Hsearch.
Qed.

End with_ucd.
End KBFacts.

(** ** The database fragment is consistent *)

Module FragmentFacts.
Import PyStr Normalizer NormalForm Fragment.
#[local] Existing Instance ucd_fragment.

Lemma bounded_forall (P : N -> Prop) `{forall c, Decision (P c)} (bound : N) :
  forallb (fun n => bool_decide (P (N.of_nat n))) (seq 0 (N.to_nat bound)) = true ->
  forall c, c < bound -> P c.
Proof.
  intros Hall c Hc. rewrite forallb_forall in Hall.
  specialize (Hall (N.to_nat c)). rewrite N2Nat.id in Hall.
  apply bool_decide_eq_true in Hall; [done|]. apply in_seq. lia.
Qed.

Lemma assoc_value_cases (t : list (N * list N)) (c : N) :
  assoc_value t c = [c] \/ (c, assoc_value t c) ∈ t.
Proof.
  induction t as [|[k v] t IH]; simpl; [by left|].
  destruct (N.eqb_spec k c) as [->|Hne]; [right; by left|].
  destruct IH as [IH|IH]; [by left|right; by right].
Qed.

Lemma isword_bound (c : N) : isword c = true -> c < 0x980.
Proof.
  unfold isword, isalnum, ucd_fragment, in_ranges, alnum_ranges, LOW_LINE.
  cbn [existsb fst snd].
  rewrite !orb_true_iff, !andb_true_iff, !N.leb_le, N.eqb_eq. lia.
Qed.

Lemma fragment_consistent : ucd_consistent.
Proof.
  split.
  - by vm_compute.
  - intros c d Hd. change (decomposition c) with (assoc_value decomposition_table c) in Hd.
    change (decomposition d) with (assoc_value decomposition_table d).
    destruct (assoc_value_cases decomposition_table c) as [Hc|Hc].
    + rewrite Hc in Hd. apply list_elem_of_singleton in Hd. by subst.
    + assert (Forall (fun kv : N * list N =>
                        Forall (fun d => assoc_value decomposition_table d = [d]) kv.2)
                     decomposition_table) as Htable.
      { compute_done. }
      rewrite Forall_forall in Htable. specialize (Htable _ Hc). simpl in Htable.
      rewrite Forall_forall in Htable. by apply Htable.
  - intros c d Hc Hd.
    assert (c < 0x980) as Hbound by (apply isword_bound, Hc).
    assert (forall c, c < 0x980 ->
              settled c -> Forall (fun d => settled d /\ caseless d) (lower_images c))
      as Himages.
    { refine (bounded_forall
                (fun c => settled c ->
                          Forall (fun d => settled d /\ caseless d) (lower_images c))
                0x980 _).
      by vm_compute. }
    specialize (Himages c Hbound).
    specialize (Himages Hc). rewrite Forall_forall in Himages. by apply Himages.
  - intros c _. unfold lower_images, tolower_full, ucd_fragment.
    destruct (c =? CAPITAL_SIGMA); [done|]. by destruct (in_ranges upper_ranges c).
Qed.

End FragmentFacts.

(** ** The engine run on concrete knowledge bases *)

Module Runs.
Import PyStr Normalizer NormalForm KB KBSpec Scenarios Fragment.
#[local] Existing Instance ucd_fragment.

Lemma text_ne {A} `{EqDecision A} (x y : A) : bool_decide (x = y) = false -> x <> y.
Proof. apply bool_decide_eq_false_1. Qed.

(** Closed goals are settled by evaluation. *)
Ltac run := vm_compute; reflexivity.
Ltac run_ne := apply text_ne; vm_compute; reflexivity.

(** C1 on the built-in knowledge base, question "soil testing methods".
    No word of it is indexed, so the fuzzy pass runs.  It is, letter for
    letter, a phrase of the entry [soil_testing] (similarity 40/40), yet
    the answer returned is that of [rice_planting_time], whose phrase
    "rice planting season" is the first to pass the threshold (18/40). *)
Theorem fuzzy_pass_returns_first_hit :
  keyword_matches (keywords_index default_kb)
    (split (normalize_text (py "soil testing methods"))) = [] /\
  ranking (evalM (search_by_patterns (normalize_text (py "soil testing methods")) (py "en"))
             default_kb) =
    [(py "rice_planting_time", Some (18 # 40)); (py "rice_planting_time", Some (16 # 50));
     (py "wheat_cultivation", Some (16 # 39)); (py "soil_testing", Some (14 # 36));
     (py "soil_testing", Some (40 # 40)); (py "soil_testing", Some (12 # 38))] /\
  evalM (get_answer (py "soil testing methods") (py "en")) default_kb =
    answer_text entry_rice_planting_time (py "en") /\
  answer_text entry_rice_planting_time (py "en") <> answer_text entry_soil_testing (py "en").
Proof. split; [run|]. split; [run|]. split; [run|run_ne]. Qed.

(** C3 on the built-in knowledge base, question "best time for
    cultivation".  Asked in English the fuzzy pass finds five phrases above
    the threshold and an entry is answered; asked with the unknown language
    code "fr" the pass reads no phrase at all, English ones included, and
    the [not_found] response comes back (in English: the resolver does
    fall back). *)
Theorem unknown_language_finds_no_phrase :
  evalM (search_by_patterns (normalize_text (py "best time for cultivation")) (py "fr"))
    default_kb = [] /\
  evalM (get_answer (py "best time for cultivation") (py "fr")) default_kb =
    Some (evalM (get_response (py "not_found") (py "en")) default_kb) /\
  length (evalM (search_by_patterns (normalize_text (py "best time for cultivation"))
                   (py "en")) default_kb) = 5%nat /\
  evalM (get_answer (py "best time for cultivation") (py "en")) default_kb =
    answer_text entry_rice_planting_time (py "en") /\
  Some (evalM (get_response (py "not_found") (py "en")) default_kb) <>
    answer_text entry_rice_planting_time (py "en").
Proof. split; [run|]. split; [run|]. split; [run|]. split; [run|run_ne]. Qed.

(** C2 fails on the built-in knowledge base: "soil test" is a keyword of
    [soil_testing], filed under a key of two words; the question
    "soil test" finds nothing in the keyword pass and is answered, by the
    fuzzy pass, with the answer of [wheat_cultivation]. *)
Lemma soil_test_keyword_not_answered :
  entry_soil_testing ∈ c_entries category_soil_management /\
  py "soil test" ∈ e_keywords entry_soil_testing /\
  keyword_matches (keywords_index default_kb) (split (normalize_text (py "soil test"))) = [] /\
  evalM (get_answer (py "soil test") (py "en")) default_kb =
    answer_text entry_wheat_cultivation (py "en") /\
  answer_text entry_wheat_cultivation (py "en") <> answer_text entry_soil_testing (py "en").
Proof.
  split; [compute_done|]. split; [compute_done|]. split; [run|]. split; [run|run_ne].
Qed.

Lemma keyword_question_answer_witness :
  py "wheat" ∈ e_keywords entry_wheat_cultivation /\
  (exists rest,
     keyword_matches (keywords_index default_kb) (split (normalize_text (py "wheat"))) =
       keyword_hit (py "crop_planning") entry_wheat_cultivation :: rest /\
     evalM (search_entries (normalize_text (py "wheat")) (py "hi")) default_kb =
       keyword_hit (py "crop_planning") entry_wheat_cultivation :: rest) /\
  evalM (get_answer (py "wheat") (py "hi")) default_kb =
    answer_text entry_wheat_cultivation (py "hi").
Proof.
  split; [compute_done|].
  apply (KBFacts.keyword_question_answer FileAbsent 0 1 (py "crop_planning")
           category_crop_planning entry_wheat_cultivation (py "wheat") (py "hi"));
    compute_done.
Defined.


(** C4 fails as well when an entry has no ['answer']: with a static source
    that has such an entry, filed under the keyword "compost", the object
    is constructed and loaded, and the question "compost" makes
    [get_answer] raise [KeyError]. *)
Lemma missing_answer_raises :
  evalM is_loaded (KnowledgeBase_init (FileParsed unanswered_data)) = true /\
  ranking (evalM (search_entries (normalize_text (py "compost")) (py "en"))
             (KnowledgeBase_init (FileParsed unanswered_data))) =
    [(py "compost_making", None)] /\
  evalM (get_answer (py "compost") (py "en"))
    (KnowledgeBase_init (FileParsed unanswered_data)) = None.
Proof. split; [run|]. split; [run|run]. Qed.


Lemma keyword_pass_takes_precedence_witness :
  py "rice" ∈ split (normalize_text (py "When to plant RICE?")) /\
  is_Some (keywords_index default_kb !! py "rice") /\
  evalM (search_entries (normalize_text (py "When to plant RICE?")) (py "en")) default_kb =
    keyword_matches (keywords_index default_kb)
      (split (normalize_text (py "When to plant RICE?"))) /\
  keyword_matches (keywords_index default_kb)
    (split (normalize_text (py "When to plant RICE?"))) <> [].
Proof.
  assert (py "rice" ∈ split (normalize_text (py "When to plant RICE?"))) as Hword
    by compute_done.
  assert (is_Some (keywords_index default_kb !! py "rice")) as Hkey by compute_done.
  destruct (KBFacts.keyword_pass_takes_precedence FileAbsent (py "When to plant RICE?") (py "en")
              (py "rice") Hword Hkey) as (Hsearch & Hne & _).
  split; [exact Hword|]. split; [exact Hkey|]. split; [exact Hsearch|exact Hne].
Defined.

(** C7 fails for a question that is empty only after normalisation: "!"
    normalises to the empty text, passes the guard, reaches the fuzzy pass
    and is answered with an entry whose phrase normalises to the empty text
    as well. *)
Lemma punctuation_question_reaches_fuzzy_pass :
  normalize_text (py "!") = [] /\
  evalM (get_answer (py "!") (py "en")) (KnowledgeBase_init (FileParsed punctuation_data)) =
    answer_text entry_question_mark (py "en") /\
  answer_text entry_question_mark (py "en") <>
    Some (evalM (get_response (py "not_found") (py "en"))
            (KnowledgeBase_init (FileParsed punctuation_data))).
Proof. split; [run|]. split; [run|run_ne]. Qed.

Lemma blank_question_not_found_witness :
  strip (py "") = [] /\
  evalM (get_answer (py "") (py "en")) default_kb =
    Some (evalM (get_response (py "not_found") (py "en")) default_kb).
Proof.
  assert (strip (py "") = []) as Hblank by reflexivity.
  split; [exact Hblank|].
  exact (proj1 (KBFacts.blank_question_not_found default_kb (py "") (py "en") Hblank)).
Defined.

Lemma normalize_text_idempotent_witness :
  ucd_consistent /\
  normalize_text (py "  Café,  RICE! ") = py "cafe rice" /\
  normalize_text (normalize_text (py "  Café,  RICE! ")) =
    normalize_text (py "  Café,  RICE! ").
Proof.
  split; [exact FragmentFacts.fragment_consistent|]. split; [run|].
  exact (NormalizerFacts.normalize_text_idempotent (py "  Café,  RICE! ")
           FragmentFacts.fragment_consistent).
Defined.

Lemma multiword_keyword_unreachable_witness :
  (exists c, c ∈ py "soil test" /\ isspace c = true) /\
  is_Some (keywords_index default_kb !! py "soil test") /\
(py "soil test" ∉ split (py "how do i do a soil test")) /\
  keyword_matches (keywords_index default_kb) (split (py "how do i do a soil test")) =
    keyword_matches (delete (py "soil test") (keywords_index default_kb))
      (split (py "how do i do a soil test")).
Proof.
  assert (exists c, c ∈ py "soil test" /\ isspace c = true) as Hspace.
  { exists SPACE. split; compute_done. }
  split; [exact Hspace|]. split; [compute_done|].
  exact (KBFacts.multiword_keyword_unreachable (keywords_index default_kb)
           (py "soil test") (py "how do i do a soil test") Hspace).
Defined.

End Runs.

(** * Further properties of the engine *)

(** ** Substrings *)

Module PyStrMore.
Import PyStr.

Lemma startswith_spec (hay needle : list N) :
  startswith hay needle = true <-> exists post, hay = needle ++ post.
Proof.
  revert hay. induction needle as [|x needle IH]; intros hay.
  - destruct hay; simpl; (split; [intros _; by eexists|done]).
  - destruct hay as [|y hay]; simpl; [split; [done|intros [post [=]]]|].
    rewrite andb_true_iff, N.eqb_eq, IH. split.
    + intros [-> [post ->]]. by exists post.
    + intros [post [= -> ->]]. split; [done|by exists post].
Qed.

(** [needle in hay] holds exactly when [hay] is [needle] between two
    texts. *)
Lemma contains_spec (hay needle : list N) :
  contains hay needle = true <-> exists pre post, hay = pre ++ needle ++ post.
Proof.
  induction hay as [|y hay IH]; cbn [contains].
  - rewrite orb_false_r, startswith_spec. split.
    + intros [post Hpost]. by exists [], post.
    + intros (pre & post & Heq). symmetry in Heq.
      apply app_eq_nil in Heq as [-> Heq]. apply app_eq_nil in Heq as [-> ->].
      by exists [].
  - rewrite orb_true_iff, startswith_spec, IH. split.
    + intros [[post Hpost]|(pre & post & ->)].
      * by exists [], post.
      * by exists (y :: pre), post.
    + intros ([|z pre] & post & Heq); simpl in Heq.
      * left. by exists post.
      * injection Heq as -> ->. right. by exists pre, post.
Qed.

End PyStrMore.

(** ** Intents, words and languages *)

Module KBMore.
Import PyStr Normalizer KB KBSpec KBSpecMore KBFacts.
Section with_ucd.
Context `{UnicodeData}.

Lemma evalM_is_greeting (text language : str) (self : KnowledgeBase) :
  evalM (is_greeting text language) self =
  existsb (fun greeting => contains text (normalize_text greeting))
          (trigger_phrases (data self) (py "greetings") language).
Proof. reflexivity. Qed.

Lemma evalM_is_help_request (text language : str) (self : KnowledgeBase) :
  evalM (is_help_request text language) self =
  existsb (fun pattern => contains text (normalize_text pattern))
          (trigger_phrases (data self) (py "help") language).
Proof. reflexivity. Qed.

Lemma trigger_found (text : str) (triggers : list str) (trigger pre post : str) :
  trigger ∈ triggers ->
  text = pre ++ normalize_text trigger ++ post ->
  existsb (fun t => contains text (normalize_text t)) triggers = true.
Proof.
  intros Hin Htext. apply existsb_exists. exists trigger.
  split; [by apply list_elem_of_In|]. apply PyStrMore.contains_spec. by exists pre, post.
Qed.

(** X1. A question that is not blank and whose normalised text holds,
    anywhere, the normalised form of a greeting trigger of the language or
    of English is answered with the greeting response, whatever else it
    holds: the check is a substring test and precedes every other one. *)
Theorem greeting_trigger_wins (self : KnowledgeBase)
    (question language trigger pre post : str) :
  strip question <> [] ->
  trigger ∈ trigger_phrases (data self) (py "greetings") language ->
  normalize_text question = pre ++ normalize_text trigger ++ post ->
  evalM (get_answer question language) self =
  Some (evalM (get_response (py "greetings") language) self).
Proof.
  intros Hraw Hin Htext. rewrite evalM_get_answer.
  destruct (strip question); [done|]. cbv zeta.
  by rewrite evalM_is_greeting, (trigger_found _ _ trigger pre post).
Qed.

(** X2. A question that is not blank, holds no greeting trigger, and whose
    normalised text holds the normalised form of a help trigger of the
    language or of English, is answered with the help response, before
    any entry is searched. *)
Theorem help_trigger_wins (self : KnowledgeBase)
    (question language trigger pre post : str) :
  strip question <> [] ->
  evalM (is_greeting (normalize_text question) language) self = false ->
  trigger ∈ trigger_phrases (data self) (py "help") language ->
  normalize_text question = pre ++ normalize_text trigger ++ post ->
  evalM (get_answer question language) self =
  Some (evalM (get_response (py "help") language) self).
Proof.
  intros Hraw Hg Hin Htext. rewrite evalM_get_answer.
  destruct (strip question); [done|]. cbv zeta. rewrite Hg.
  by rewrite evalM_is_help_request, (trigger_found _ _ trigger pre post).
Qed.

(** X3. The answer depends on a question that is not blank only through
    its normalised text: two such questions with the same normalised text
    get the same answer (case, punctuation, accents and spacing that
    normalisation removes make no difference). *)
Theorem answer_by_normalized_text (self : KnowledgeBase) (question other language : str) :
  strip question <> [] -> strip other <> [] ->
  normalize_text question = normalize_text other ->
  evalM (get_answer question language) self = evalM (get_answer other language) self.
Proof.
  intros Hq Ho Hnorm. rewrite !evalM_get_answer.
  destruct (strip question); [done|]. destruct (strip other); [done|].
  cbv zeta. by rewrite Hnorm.
Qed.

(** ** The index and the keyword pass *)

(** X4. What [build_search_index] files and what a lookup finds: in the
    index of a constructed object, a hit lies in the bucket of a key
    exactly when it is the hit of an entry of the data one of whose
    keywords, lower-cased and normalised, is that key; and no bucket is
    empty. *)
Theorem index_bucket_members (src : Source) (key : str) (h : Hit) :
  let self := KnowledgeBase_init src in
  ((exists bucket, keywords_index self !! key = Some bucket /\ h ∈ bucket) <->
   (exists item e keyword,
      item ∈ categories_items (data self) /\ e ∈ c_entries item.2 /\
      keyword ∈ e_keywords e /\ normalize_text (lower keyword) = key /\
      h = keyword_hit item.1 e)) /\
  keywords_index self !! key <> Some [].
Proof.
  intros self. split.
  - unfold self. rewrite init_lookup. fold self. split.
    + intros (bucket & Hb & Hh).
      destruct (bucket_of _ key) as [|b bs] eqn:Hbucket; [done|].
      injection Hb as <-. rewrite <- Hbucket in Hh.
      apply elem_of_bucket_of, elem_of_postings in Hh
        as (item & e & Hitem & He & Hkey & Hhit). simpl in Hkey, Hhit.
      unfold entry_keys in Hkey.
      apply list_elem_of_In, in_map_iff in Hkey as (keyword & Hk & Hin).
      exists item, e, keyword.
      split; [done|]. split; [done|]. split; [by apply list_elem_of_In|]. done.
    + intros (item & e & keyword & Hitem & He & Hk & Hkey & ->).
      assert (keyword_hit item.1 e ∈
              bucket_of (postings (categories_items (data self))) key) as Hin.
      { apply elem_of_bucket_of. unfold postings, category_postings, entry_postings.
        apply list_elem_of_In, in_flat_map. exists item.
        split; [by apply list_elem_of_In|].
        apply in_flat_map. exists e. split; [by apply list_elem_of_In|].
        apply in_map_iff. exists keyword. rewrite Hkey.
        split; [done|by apply list_elem_of_In]. }
      destruct (bucket_of _ key) as [|b bs]; [by apply elem_of_nil in Hin|].
      by exists (b :: bs).
  - intros Hb. by apply (init_bucket_nonempty src key []) in Hb.
Qed.

Lemma fold_add_hit_elem (bucket matches : list Hit) (h : Hit) :
  h ∈ fold_left add_hit bucket matches <-> h ∈ matches \/ h ∈ bucket.
Proof.
  revert matches. induction bucket as [|x bucket IH]; intros matches; simpl.
  - rewrite elem_of_nil. tauto.
  - rewrite IH, elem_of_cons. unfold add_hit.
    destruct (decide (x ∈ matches)) as [Hx|Hx].
    + split; [tauto|]. intros [?|[->|?]]; tauto.
    + rewrite elem_of_app, list_elem_of_singleton. tauto.
Qed.

Lemma fold_add_hit_NoDup (bucket matches : list Hit) :
  NoDup matches -> NoDup (fold_left add_hit bucket matches).
Proof.
  revert matches. induction bucket as [|x bucket IH]; intros matches Hnd; simpl; [done|].
  apply IH. unfold add_hit. destruct (decide (x ∈ matches)) as [Hx|Hx]; [done|].
  apply NoDup_app. split; [done|]. split.
  - intros y Hy ->%list_elem_of_singleton. done.
  - apply NoDup_singleton.
Qed.

Lemma keyword_loop_elem (idx : gmap str (list Hit)) (ws : list str)
    (matches : list Hit) (h : Hit) :
  h ∈ keyword_loop idx ws matches <->
  h ∈ matches \/ exists word bucket, word ∈ ws /\ idx !! word = Some bucket /\ h ∈ bucket.
Proof.
  revert matches. induction ws as [|w ws IH]; intros matches; simpl.
  - split; [by left|]. intros [?|(? & ? & []%elem_of_nil & _)]. done.
  - rewrite IH. destruct (idx !! w) as [bucket|] eqn:Hb.
    + rewrite fold_add_hit_elem. split.
      * intros [[?|?]|(word & b & ? & ? & ?)]; [by left| |].
        -- right. exists w, bucket. split; [by left|done].
        -- right. exists word, b. split; [by right|done].
      * intros [?|(word & b & [->|?]%elem_of_cons & Hw & ?)]; [by left; left| |].
        -- rewrite Hb in Hw. injection Hw as <-. left. by right.
        -- right. by exists word, b.
    + split.
      * intros [?|(word & b & ? & ? & ?)]; [by left|].
        right. exists word, b. split; [by right|done].
      * intros [?|(word & b & [->|?]%elem_of_cons & Hw & ?)]; [by left| |].
        -- by rewrite Hb in Hw.
        -- right. by exists word, b.
Qed.

Lemma keyword_loop_NoDup (idx : gmap str (list Hit)) (ws : list str)
    (matches : list Hit) :
  NoDup matches -> NoDup (keyword_loop idx ws matches).
Proof.
  revert matches. induction ws as [|w ws IH]; intros matches Hnd; simpl; [done|].
  apply IH. destruct (idx !! w); [by apply fold_add_hit_NoDup|done].
Qed.

(** X5. The keyword loop collects exactly the hits filed under the words
    of the question, each once: a hit is among the matches if and only if
    it lies in the bucket of some word, and the matches hold no hit
    twice. *)
Theorem keyword_matches_exact (idx : gmap str (list Hit)) (question_words : list str) :
  NoDup (keyword_matches idx question_words) /\
  (forall h,
     h ∈ keyword_matches idx question_words <->
     exists word bucket,
       word ∈ question_words /\ idx !! word = Some bucket /\ h ∈ bucket).
Proof.
  split.
  - apply (keyword_loop_NoDup idx question_words []). constructor.
  - intros h. unfold keyword_matches.
    rewrite (keyword_loop_elem idx question_words [] h), elem_of_nil. tauto.
Qed.

Lemma keyword_loop_unindexed (idx : gmap str (list Hit)) (ws : list str)
    (matches : list Hit) :
  Forall (fun w => idx !! w = None) ws -> keyword_loop idx ws matches = matches.
Proof.
  revert matches. induction 1 as [|w ws Hw Hws IH]; intros; simpl; [done|].
  rewrite Hw. apply IH.
Qed.

Lemma keyword_loop_head (idx : gmap str (list Hit)) (ws : list str)
    (matches : list Hit) :
  matches <> [] -> head (keyword_loop idx ws matches) = head matches.
Proof.
  revert matches. induction ws as [|w ws IH]; intros matches Hne; simpl; [done|].
  destruct (idx !! w) as [bucket|]; [|by apply IH].
  rewrite IH by (apply fold_add_hit_nonempty; by right).
  by apply fold_add_hit_head.
Qed.

(** X6. Among the words of the question it is the first indexed one that
    decides the answer, and in its bucket the first hit: when the words
    before [word] are not keys of the index and the bucket of [word] starts
    with [h], a question past the greeting and help checks is answered
    with the answer of [h]'s entry, whatever the later words are filed
    under. *)
Theorem first_indexed_word_decides (self : KnowledgeBase) (question language : str)
    (before after : list str) (word : str) (h : Hit) (bucket : list Hit) :
  strip question <> [] ->
  evalM (is_greeting (normalize_text question) language) self = false ->
  evalM (is_help_request (normalize_text question) language) self = false ->
  split (normalize_text question) = before ++ word :: after ->
  Forall (fun w => keywords_index self !! w = None) before ->
  keywords_index self !! word = Some (h :: bucket) ->
  evalM (get_answer question language) self = answer_text (entry h) language.
Proof.
  intros Hraw Hg Hh Hwords Hbefore Hword.
  assert (head (keyword_matches (keywords_index self) (split (normalize_text question)))
          = Some h) as Hhead.
  { rewrite Hwords. unfold keyword_matches.
    change (fold_left ?f (before ++ word :: after) [])
      with (keyword_loop (keywords_index self) (before ++ word :: after) []).
    unfold keyword_loop. rewrite fold_left_app.
    change (fold_left ?f before []) with (keyword_loop (keywords_index self) before []).
    rewrite keyword_loop_unindexed by done. simpl. rewrite Hword. simpl.
    change (fold_left ?f after ?m) with (keyword_loop (keywords_index self) after m).
    rewrite keyword_loop_head by (apply fold_add_hit_nonempty; right; apply add_hit_nonempty).
    rewrite fold_add_hit_head by apply add_hit_nonempty. done. }
  rewrite evalM_get_answer. destruct (strip question); [done|]. cbv zeta.
  rewrite Hg, Hh, evalM_search_entries.
  destruct (keyword_matches _ _) as [|m ms]; [done|]. by injection Hhead as ->.
Qed.

(** ** Loading and rebuilding *)

(** X7. When reading the static source fails, the object is still built:
    its data is empty, it holds no category, its index is empty,
    [is_loaded] is false, and every question in every language is answered
    with the hard-coded apology. *)
Theorem load_failure_apologises (question language : str) :
  let self := KnowledgeBase_init FileError in
  evalM (get_answer question language) self = Some apology /\
  evalM is_loaded self = false /\
  evalM get_categories self = [] /\
  categories self = [] /\
  keywords_index self = ∅ /\
  data self = empty_data.
Proof.
  intros self.
  assert (self = blank) as -> by reflexivity.
  assert (forall response_type, evalM (get_response response_type language) blank = apology)
    as Hresp.
  { intros rt. rewrite evalM_get_response. cbv zeta.
    change (d_responses (data blank)) with (∅ : gmap (list N) (gmap (list N) (list N))).
    rewrite lookup_empty. cbn [from_option id]. rewrite !lookup_empty. reflexivity. }
  assert (forall intent lang, trigger_phrases (data blank) intent lang = []) as Htrig.
  { intros intent lang. unfold trigger_phrases. cbv zeta.
    change (d_common_questions (data blank))
      with (∅ : gmap (list N) (gmap (list N) (list (list N)))).
    rewrite lookup_empty. cbn [from_option id]. rewrite !lookup_empty. reflexivity. }
  assert (forall ws, keyword_matches (keywords_index blank) ws = []) as Hk.
  { intros ws. apply (keyword_loop_unindexed ∅ ws []).
    apply Forall_forall. intros w _. apply lookup_empty. }
  split; [|split; [reflexivity|split; [reflexivity|split; [reflexivity|split; reflexivity]]]].
  rewrite evalM_get_answer. destruct (strip question); [by rewrite Hresp|]. cbv zeta.
  rewrite evalM_is_greeting, evalM_is_help_request, !Htrig. cbn [existsb].
  rewrite evalM_search_entries, Hk, evalM_search_by_patterns, Hresp. reflexivity.
Qed.

(** X8. [build_search_index] writes the index and nothing else, and what it
    writes depends on the data alone: it starts from an empty index, so
    nothing of a former index survives, and building twice is building
    once. *)
Theorem build_search_index_rebuilds (self : KnowledgeBase) :
  let built := execM build_search_index self in
  data built = data self /\
  categories built = categories self /\
  keywords_index built =
    index_of_postings (postings (categories_items (data self))) ∅ /\
  execM build_search_index built = built /\
  (forall other, data other = data self ->
     keywords_index (execM build_search_index other) = keywords_index built).
Proof.
  assert (forall s,
    execM build_search_index s =
    {| data := data s; categories := categories s;
       keywords_index := index_of_postings (postings (categories_items (data s))) ∅ |})
    as Hrun.
  { intros s. unfold execM, build_search_index, mbind, KBM_bind, set_keywords_index,
      get_self, categories_items. simpl.
    destruct (d_categories (data s)) as [items|]; simpl; [|done].
    by rewrite index_items_postings. }
  intros built. unfold built. rewrite !Hrun. simpl. repeat split; try done.
  intros other Hother. by rewrite Hrun, Hother.
Qed.

(** ** The fuzzy pass, phrase by phrase *)

Lemma flat_map_flat_map {X Y Z} (f : Y -> list Z) (g : X -> list Y) (l : list X) :
  flat_map f (flat_map g l) = flat_map (fun x => flat_map f (g x)) l.
Proof. induction l as [|x l IH]; simpl; [done|]. by rewrite flat_map_app, IH. Qed.

Lemma flat_map_map {X Y Z} (f : Y -> list Z) (g : X -> Y) (l : list X) :
  flat_map f (map g l) = flat_map (fun x => f (g x)) l.
Proof. induction l as [|x l IH]; simpl; [done|]. by rewrite IH. Qed.

(** The hits of the fuzzy pass are those of the phrases, in iteration
    order. *)
Lemma search_by_patterns_phrases (self : KnowledgeBase) (question language : str) :
  evalM (search_by_patterns question language) self =
  flat_map (phrase_hits question) (phrases (data self) language).
Proof.
  rewrite evalM_search_by_patterns. unfold phrases. rewrite flat_map_flat_map.
  apply flat_map_ext. intros item. unfold category_pattern_hits, category_phrases.
  rewrite flat_map_flat_map. apply flat_map_ext. intros e.
  unfold entry_pattern_hits, entry_phrases. rewrite flat_map_map. done.
Qed.

Lemma phrase_hits_below (question : str) (ts : list (str * Entry * str)) :
  Forall (fun t => (Difflib.ratio question (normalize_text t.2) <= threshold)%Q) ts ->
  flat_map (phrase_hits question) ts = [].
Proof.
  induction 1 as [|t ts Ht Hts IH]; simpl; [done|]. rewrite IH, app_nil_r.
  unfold phrase_hits. cbv zeta.
  destruct (exceeds_threshold _) eqn:Hsim; [|done].
  apply exceeds_threshold_spec in Hsim. by apply Qlt_not_le in Hsim.
Qed.

(** X9. What the fuzzy pass answers.  When a question reaches it (not
    blank, no greeting or help trigger, no indexed word), the answer is
    that of the first phrase, in iteration order over categories, entries
    and phrases of the language, whose similarity to the normalised
    question exceeds 0.3; phrases after it are not weighed against it. *)
Theorem fuzzy_pass_answers_first_above (self : KnowledgeBase) (question language : str)
    (before after : list (str * Entry * str)) (category_id : str) (e : Entry)
    (pattern : str) :
  strip question <> [] ->
  evalM (is_greeting (normalize_text question) language) self = false ->
  evalM (is_help_request (normalize_text question) language) self = false ->
  keyword_matches (keywords_index self) (split (normalize_text question)) = [] ->
  phrases (data self) language = before ++ (category_id, e, pattern) :: after ->
  Forall (fun t => (Difflib.ratio (normalize_text question) (normalize_text t.2)
                    <= threshold)%Q) before ->
  (threshold < Difflib.ratio (normalize_text question) (normalize_text pattern))%Q ->
  evalM (get_answer question language) self = answer_text e language.
Proof.
  intros Hraw Hg Hh Hk Hphrases Hbefore Hsim.
  rewrite evalM_get_answer. destruct (strip question); [done|]. cbv zeta.
  rewrite Hg, Hh, evalM_search_entries, Hk, search_by_patterns_phrases, Hphrases.
  rewrite flat_map_app, phrase_hits_below by done.
  cbn [flat_map app]. unfold phrase_hits at 1. cbn [fst snd].
  apply exceeds_threshold_spec in Hsim. rewrite Hsim. reflexivity.
Qed.

(** ** Unknown languages *)

Lemma existsb_twice {X} (f : X -> bool) (l : list X) :
  existsb f (l ++ l) = existsb f l.
Proof. rewrite existsb_app. by destruct (existsb f l). Qed.

Lemma trigger_phrases_unknown (d : Data) (intent language : str) (text : str) :
  language_unknown d language ->
  existsb (fun t => contains text (normalize_text t)) (trigger_phrases d intent language) =
  existsb (fun t => contains text (normalize_text t)) (trigger_phrases d intent (py "en")).
Proof.
  intros [Hcq _]. unfold trigger_phrases. cbv zeta.
  destruct (d_common_questions d !! intent) as [table|] eqn:Htable; simpl.
  - rewrite (Hcq intent table Htable). cbn [from_option id app].
    rewrite existsb_twice. reflexivity.
  - rewrite !lookup_empty. cbn [from_option id app]. reflexivity.
Qed.

Lemma get_response_unknown (self : KnowledgeBase) (response_type language : str) :
  language_unknown (data self) language ->
  evalM (get_response response_type language) self =
  evalM (get_response response_type (py "en")) self.
Proof.
  intros (_ & Hresp & _). rewrite !evalM_get_response. cbv zeta.
  destruct (d_responses (data self) !! response_type) as [table|] eqn:Htable; simpl.
  - rewrite (Hresp response_type table Htable). cbn [from_option id].
    destruct (table !! py "en"); cbn [from_option id]; reflexivity.
  - rewrite !lookup_empty. cbn [from_option id]. reflexivity.
Qed.

Lemma phrases_unknown (d : Data) (language : str) :
  language_unknown d language -> phrases d language = [].
Proof.
  intros (_ & _ & Hentries). unfold phrases.
  induction Hentries as [|item items Hitem _ IH]; simpl; [done|].
  rewrite IH, app_nil_r. unfold category_phrases.
  induction Hitem as [|e es [_ He] _ IHe]; simpl; [done|].
  rewrite IHe, app_nil_r. unfold entry_phrases. by rewrite He.
Qed.

Lemma answer_text_unknown (d : Data) (item : str * Category) (e : Entry) (language : str) :
  language_unknown d language ->
  item ∈ categories_items d -> e ∈ c_entries item.2 ->
  answer_text e language = answer_text e (py "en").
Proof.
  intros (_ & _ & Hentries) Hitem He.
  rewrite Forall_forall in Hentries. specialize (Hentries item Hitem).
  rewrite Forall_forall in Hentries. destruct (Hentries e He) as [Hans _].
  unfold answer_text. destruct (e_answer e) as [answer|]; [|reflexivity].
  cbn [from_option id mbind option_bind] in Hans |- *.
  rewrite !lookup_Text, Hans. cbn [from_option id].
  destruct (answer !! py "en"); cbn [from_option id]; reflexivity.
Qed.

(** X10. A language code that no table of the data knows.  The greeting
    and help checks, the keyword pass and the resolver treat it as
    English: a question that holds a trigger or an indexed word gets the
    answer it gets in English.  The fuzzy pass finds no phrase under it:
    every other question gets the English [not_found] response, whatever
    it would match in English. *)
Theorem unknown_language_answers (src : Source) (question language : str) :
  let self := KnowledgeBase_init src in
  let text := normalize_text question in
  language_unknown (data self) language ->
  strip question <> [] ->
  (evalM (is_greeting text (py "en")) self = true \/
   evalM (is_help_request text (py "en")) self = true \/
   keyword_matches (keywords_index self) (split text) <> [] ->
   evalM (get_answer question language) self =
   evalM (get_answer question (py "en")) self) /\
  (evalM (is_greeting text (py "en")) self = false ->
   evalM (is_help_request text (py "en")) self = false ->
   keyword_matches (keywords_index self) (split text) = [] ->
   evalM (get_answer question language) self =
   Some (evalM (get_response (py "not_found") (py "en")) self)).
Proof.
  intros self text Hunknown Hraw.
  assert (evalM (get_answer question language) self =
          if evalM (is_greeting text (py "en")) self
          then Some (evalM (get_response (py "greetings") (py "en")) self)
          else if evalM (is_help_request text (py "en")) self
          then Some (evalM (get_response (py "help") (py "en")) self)
          else match keyword_matches (keywords_index self) (split text) with
               | best_match :: _ => answer_text (entry best_match) (py "en")
               | [] => Some (evalM (get_response (py "not_found") (py "en")) self)
               end) as Hanswer.
  { rewrite evalM_get_answer. destruct (strip question); [done|]. cbv zeta. fold text.
    rewrite !evalM_is_greeting, !evalM_is_help_request.
    rewrite !(trigger_phrases_unknown _ _ language) by done.
    rewrite !(get_response_unknown self _ language) by done.
    destruct (existsb _ (trigger_phrases _ (py "greetings") _)); [done|].
    destruct (existsb _ (trigger_phrases _ (py "help") _)); [done|].
    rewrite evalM_search_entries.
    destruct (keyword_matches (keywords_index self) (split text)) as [|best rest] eqn:Hk.
    - by rewrite search_by_patterns_phrases, phrases_unknown.
    - destruct (search_entries_sound src text language best) as (item & Hitem & He).
      { fold self. rewrite evalM_search_entries, Hk. by left. }
      by apply (answer_text_unknown (data self) item). }
  split.
  - intros Hfound. rewrite Hanswer, evalM_get_answer.
    destruct (strip question); [done|]. cbv zeta. fold text.
    destruct (evalM (is_greeting text (py "en")) self); [done|].
    destruct (evalM (is_help_request text (py "en")) self); [done|].
    rewrite evalM_search_entries.
    destruct (keyword_matches (keywords_index self) (split text)); [|done].
    by destruct Hfound as [?|[?|?]].
  - intros Hg Hh Hk. by rewrite Hanswer, Hg, Hh, Hk.
Qed.

End with_ucd.
End KBMore.

(** ** [SequenceMatcher] on a sequence and itself *)

Module DifflibMore.
Import Difflib DifflibSpec DifflibFacts.
Local Open Scope nat_scope.
Section with_elements.
Context {A : Type} `{EqDecision A}.
Implicit Types (a b : list A) (m : Match).

Lemma positions_from_spec (j0 : nat) (x : A) (b : list A) (j : nat) :
  j ∈ positions_from j0 x b <-> j0 <= j /\ b !! (j - j0) = Some x.
Proof.
  revert j0. induction b as [|y b IH]; intros j0; simpl.
  - rewrite elem_of_nil, lookup_nil. split; [done|by intros [_ ?]].
  - destruct (decide (x = y)) as [<-|Hne].
    + rewrite elem_of_cons, IH. split.
      * intros [->|[Hle Hb]].
        -- split; [lia|]. by rewrite Nat.sub_diag.
        -- split; [lia|]. by replace (j - j0) with (S (j - S j0)) by lia.
      * intros [Hle Hb]. destruct (decide (j = j0)) as [->|Hj]; [by left|right].
        split; [lia|]. by replace (j - j0) with (S (j - S j0)) in Hb by lia.
    + rewrite IH. split.
      * intros [Hle Hb]. split; [lia|].
        by replace (j - j0) with (S (j - S j0)) by lia.
      * intros [Hle Hb]. destruct (decide (j = j0)) as [->|Hj].
        -- rewrite Nat.sub_diag in Hb. simpl in Hb. congruence.
        -- split; [lia|]. by replace (j - j0) with (S (j - S j0)) in Hb by lia.
Qed.

(** Below 200 elements nothing is dropped as popular. *)
Lemma b2j_short (b : list A) (x : A) (j : nat) :
  length b < 200 -> j ∈ b2j b x <-> b !! j = Some x.
Proof.
  intros Hshort. unfold b2j. cbv zeta.
  replace (200 <=? length b) with false by (symmetry; apply Nat.leb_gt; lia).
  simpl. rewrite positions_from_spec, Nat.sub_0_r. split; [tauto|]. split; [lia|done].
Qed.

(** One row of the scan: the best block only grows, and a position in
    range that the row visits extends the run that ended on the row
    before. *)
Lemma scan_row_grows (blo bhi i : nat) (j2len : gmap nat nat) (js : list nat)
    (st : Match * gmap nat nat) :
  m_size st.1 <= m_size (scan_row blo bhi i j2len js st).1.
Proof.
  revert st. induction js as [|j js IH]; intros [best new]; simpl; [done|].
  destruct (j <? blo); [apply (IH (best, new))|]. destruct (bhi <=? j); [done|].
  etransitivity; [|apply (IH (_, _))]. simpl.
  destruct (m_size best <? j2len_get j2len j + 1) eqn:Hlt; simpl; [|done].
  apply Nat.ltb_lt in Hlt. lia.
Qed.

Lemma scan_row_keeps (blo bhi i : nat) (j2len : gmap nat nat) (js : list nat)
    (st : Match * gmap nat nat) (j : nat) (v : nat) :
  st.2 !! j = Some v -> j ∉ js ->
  (scan_row blo bhi i j2len js st).2 !! j = Some v.
Proof.
  revert st. induction js as [|j' js IH]; intros [best new] Hv Hnin; simpl; [done|].
  apply not_elem_of_cons in Hnin as [Hne Hnin].
  destruct (j' <? blo); [by apply (IH (best, new))|]. destruct (bhi <=? j'); [done|].
  apply (IH (_, _)); [|done]. simpl. by rewrite lookup_insert_ne.
Qed.

Lemma scan_row_visits (blo bhi i : nat) (j2len : gmap nat nat) (js : list nat)
    (st : Match * gmap nat nat) (j : nat) :
  Forall (fun j' => blo <= j' < bhi) js -> NoDup js -> j ∈ js ->
  let st' := scan_row blo bhi i j2len js st in
  st'.2 !! j = Some (j2len_get j2len j + 1) /\ j2len_get j2len j + 1 <= m_size st'.1.
Proof.
  intros Hrange Hnd. revert st.
  induction js as [|j' js IH]; intros [best new] Hin; [by apply elem_of_nil in Hin|].
  inversion Hrange as [|? ? Hj' Hrange']; subst.
  inversion Hnd as [|? ? Hnin Hnd']; subst.
  cbn [scan_row].
  replace (j' <? blo) with false by (symmetry; apply Nat.ltb_ge; lia).
  replace (bhi <=? j') with false by (symmetry; apply Nat.leb_gt; lia).
  apply elem_of_cons in Hin as [->|Hin].
  - split.
    + apply scan_row_keeps; [|done]. simpl. by rewrite lookup_insert_eq.
    + etransitivity; [|apply (scan_row_grows _ _ _ _ _ (_, _))]. simpl.
      destruct (m_size best <? j2len_get j2len j' + 1) eqn:Hlt; simpl; [done|].
      apply Nat.ltb_ge in Hlt. lia.
  - by apply (IH Hrange' Hnd' (_, _)).
Qed.

Lemma positions_from_NoDup (j0 : nat) (x : A) (b : list A) :
  NoDup (positions_from j0 x b).
Proof.
  revert j0. induction b as [|y b IH]; intros j0; simpl; [constructor|].
  destruct (decide (x = y)); [|apply IH]. constructor; [|apply IH].
  rewrite positions_from_spec. lia.
Qed.

Lemma positions_from_range (j0 : nat) (x : A) (b : list A) :
  Forall (fun j => j0 <= j < j0 + length b) (positions_from j0 x b).
Proof.
  apply Forall_forall. intros j [Hle Hj]%positions_from_spec.
  apply lookup_lt_Some in Hj. lia.
Qed.

(** Scanning a short sequence against itself: after the rows below
    [start] the run on the diagonal has length [start], and so has, at
    least, the best block. *)
Lemma scan_self_fold (a : list A) (n start : nat) (st : Match * gmap nat nat) :
  length a < 200 ->
  start + n <= length a ->
  j2len_get st.2 start = start ->
  start <= m_size st.1 ->
  let st' :=
    fold_left
      (fun (st : Match * gmap nat nat) i =>
         let '(best, j2len) := st in
         let js := match a !! i with Some x => b2j a x | None => [] end in
         scan_row 0 (length a) i j2len js (best, ∅))
      (seq start n) st in
  start + n <= m_size st'.1.
Proof.
  intros Hshort. revert start st.
  induction n as [|n IH]; intros start [best j2len] Hlen Hdiag Hbest; simpl in *; [lia|].
  destruct (a !! start) as [x|] eqn:Hx.
  2:{ apply lookup_ge_None in Hx. lia. }
  assert (start ∈ b2j a x) as Hin by (by apply b2j_short).
  assert (Forall (fun j' => 0 <= j' < length a) (b2j a x)) as Hrange.
  { unfold b2j. cbv zeta. destruct (_ && _); [constructor|].
    apply (positions_from_range 0). }
  assert (NoDup (b2j a x)) as Hnd.
  { unfold b2j. cbv zeta. destruct (_ && _); [constructor|].
    apply positions_from_NoDup. }
  destruct (scan_row_visits 0 (length a) start j2len (b2j a x) (best, ∅) start
              Hrange Hnd Hin) as [Hnew Hsize].
  rewrite Hdiag in Hnew, Hsize.
  replace (start + S n) with (S start + n) by lia.
  apply IH; [lia| |lia].
  simpl. rewrite Hnew. simpl. lia.
Qed.

Lemma extend_right_full (fuel : nat) (a b : list A) (ahi bhi : nat) (m : Match) :
  ahi <= m_a m + m_size m -> extend_right fuel a b ahi bhi m = m.
Proof.
  intros Hfull. destruct fuel as [|fuel]; simpl; [done|].
  replace (m_a m + m_size m <? ahi) with false by (symmetry; apply Nat.ltb_ge; lia).
  done.
Qed.

Lemma find_longest_match_self (a : list A) :
  length a < 200 ->
  let m := find_longest_match a a 0 (length a) 0 (length a) in
  m_a m = 0 /\ m_size m = length a.
Proof.
  intros Hshort m.
  assert (length a <= m_size (scan_rows a a 0 (length a) 0 (length a))) as Hscan.
  { unfold scan_rows. rewrite Nat.sub_0_r.
    apply (scan_self_fold a (length a) 0
             ({| m_a := 0; m_b := 0; m_size := 0 |}, ∅)); simpl; lia || done. }
  destruct (scan_rows_bounds a a 0 (length a) 0 (length a)) as [Hlo0 Hhi0]; [lia|].
  unfold m, find_longest_match.
  set (m0 := scan_rows a a 0 (length a) 0 (length a)) in *.
  assert (m_a m0 = 0) as Hma by lia.
  rewrite Hma. cbn [extend_left].
  rewrite extend_right_full by lia. lia.
Qed.

Lemma matching_blocks_self (a : list A) :
  length a < 200 ->
  foldr (fun x acc => m_size x + acc) 0 (get_matching_blocks a a) = length a.
Proof.
  intros Hshort. destruct (find_longest_match_self a Hshort) as [Hma Hsize].
  unfold get_matching_blocks.
  replace (2 * length a + 1) with (S (2 * length a)) by lia.
  cbn [blocks_loop].
  set (x := find_longest_match a a 0 (length a) 0 (length a)) in *.
  destruct (m_size x =? 0) eqn:Hk.
  - apply Nat.eqb_eq in Hk. rewrite blocks_loop_done. simpl. lia.
  - replace (0 <? m_a x) with false by (symmetry; apply Nat.ltb_ge; lia).
    replace (m_a x + m_size x <? length a) with false
      by (symmetry; apply Nat.ltb_ge; lia).
    cbn [andb]. rewrite blocks_loop_done. simpl. lia.
Qed.

(** On a sequence of less than 200 elements and itself the matching
    blocks cover the whole sequence, and [ratio()] is [2n / 2n]. *)
Lemma ratio_self (a : list A) :
  length a < 200 ->
  ratio a a =
  match length a with
  | O => 1%Q
  | S _ => Qmake (Z.of_nat (2 * length a)) (Pos.of_nat (length a + length a))
  end.
Proof.
  intros Hshort. unfold ratio. cbv zeta. rewrite matching_blocks_self by done.
  by destruct (length a).
Qed.

End with_elements.
End DifflibMore.

(** ** A stored phrase as the question *)

Module KBPhrase.
Import PyStr Normalizer KB KBSpec KBSpecMore KBFacts.
Section with_ucd.
Context `{UnicodeData}.

Lemma Zpos_of_nat (k : nat) : (0 < k)%nat -> Z.pos (Pos.of_nat k) = Z.of_nat k.
Proof. intros Hk. rewrite <- positive_nat_Z, Nat2Pos.id; [done|lia]. Qed.

Lemma ratio_self_one (text : str) :
  (length text < 200)%nat -> (Difflib.ratio text text == 1)%Q.
Proof.
  intros Hshort. rewrite DifflibMore.ratio_self by done.
  destruct (length text) as [|n] eqn:Hlen; [reflexivity|].
  unfold Qeq. cbn [Qnum Qden]. rewrite Zpos_of_nat by lia. lia.
Qed.

Lemma ratio_self_exceeds (text : str) :
  (length text < 200)%nat -> exceeds_threshold (Difflib.ratio text text) = true.
Proof.
  intros Hshort. apply exceeds_threshold_spec.
  rewrite (ratio_self_one text Hshort). reflexivity.
Qed.

(** X11. A question that is, once normalised, a phrase stored for the
    language (of less than 200 code points) always reaches its entry in
    the fuzzy pass, with similarity 1: the pass returns a hit for that
    entry.  So such a question, past the greeting and help checks, is
    never answered with [not_found]: it gets the answer of an entry that
    [search_entries] returned. *)
Theorem stored_phrase_is_found (self : KnowledgeBase) (item : str * Category)
    (e : Entry) (pattern language : str) :
  item ∈ categories_items (data self) ->
  e ∈ c_entries item.2 ->
  pattern ∈ default [] (e_question e !! language) ->
  (length (normalize_text pattern) < 200)%nat ->
  (exists sim,
     {| category := item.1; entry_id := e_id e; entry := e; similarity := Some sim |}
       ∈ evalM (search_by_patterns (normalize_text pattern) language) self /\
     (sim == 1)%Q) /\
  (strip pattern <> [] ->
   evalM (is_greeting (normalize_text pattern) language) self = false ->
   evalM (is_help_request (normalize_text pattern) language) self = false ->
   exists best,
     best ∈ evalM (search_entries (normalize_text pattern) language) self /\
     evalM (get_answer pattern language) self = answer_text (entry best) language).
Proof.
  intros Hitem He Hp Hshort.
  set (text := normalize_text pattern) in *.
  assert ({| category := item.1; entry_id := e_id e; entry := e;
             similarity := Some (Difflib.ratio text text) |}
            ∈ evalM (search_by_patterns text language) self) as Hhit.
  { apply elem_of_search_by_patterns. exists item, e.
    split; [done|]. split; [done|].
    apply elem_of_entry_pattern_hits. exists pattern.
    split; [done|]. split; [by apply ratio_self_exceeds|done]. }
  split.
  - exists (Difflib.ratio text text). split; [done|by apply ratio_self_one].
  - intros Hraw Hg Hh. rewrite evalM_get_answer.
    destruct (strip pattern); [done|]. cbv zeta. fold text. rewrite Hg, Hh.
    destruct (evalM (search_entries text language) self) as [|best rest] eqn:Hsearch.
    + rewrite evalM_search_entries in Hsearch.
      destruct (keyword_matches _ _); [|done].
      rewrite Hsearch in Hhit. by apply elem_of_nil in Hhit.
    + exists best. split; [by left|done].
Qed.

End with_ucd.
End KBPhrase.

(** ** The shape of a normalised text *)

Module NormalizerMore.
Import PyStr Normalizer NormalForm NormalizerFacts.
Section with_ucd.
Context `{UnicodeData}.

Lemma strip_combining_insert_mark (c : N) (s : str) :
  strip_combining (insert_mark c s) = strip_combining (c :: s).
Proof.
  unfold strip_combining. induction s as [|d s IH]; [done|]. cbn [insert_mark].
  destruct ((0 <? combining d) && (combining d <? combining c)) eqn:Hcond; [|done].
  apply andb_prop in Hcond as [Hd%N.ltb_lt Hc%N.ltb_lt].
  rewrite (filter_cons _ d), IH, !filter_cons.
  destruct (decide (combining d = 0)); [lia|].
  destruct (decide (combining c = 0)); [lia|done].
Qed.

(** Canonical ordering moves combining marks only. *)
Lemma strip_combining_canonical_order (s : str) :
  strip_combining (canonical_order s) = strip_combining s.
Proof.
  induction s as [|c s IH]; [done|]. cbn [canonical_order foldr].
  rewrite strip_combining_insert_mark. unfold strip_combining in *.
  rewrite !filter_cons. fold (canonical_order s). by rewrite IH.
Qed.

(** X12. Accents do not count: two texts whose decompositions agree once
    the combining marks are dropped have the same normalised text. *)
Theorem normalize_text_ignores_marks (x y : str) :
  strip_combining (flat_map decomposition x) = strip_combining (flat_map decomposition y) ->
  normalize_text x = normalize_text y.
Proof.
  intros Hsame. unfold normalize_text, NFKD. cbv zeta.
  by rewrite !strip_combining_canonical_order, Hsame.
Qed.

(** X13. A normalised text is in normal form: it has no white space at
    either end, its white space is single spaces, lower-casing changes
    nothing, and every code point of it is a space or a word character
    that is not a combining mark. *)
Theorem normalize_text_normal_form (x : str) :
  ucd_consistent ->
  let text := normalize_text x in
  strip text = text /\
  collapse_spaces text = text /\
  lower text = text /\
  Forall (fun c => c = SPACE \/
                   (isword c = true /\ isspace c = false /\ combining c = 0)) text.
Proof.
  intros Hucd text.
  destruct (normalize_text_tidy x Hucd) as [Htidy Hsp]. fold text in Htidy, Hsp.
  assert (collapse_spaces text = text) as Hcollapse.
  { destruct Hsp as [->|Hsp]; [done|].
    by apply (collapse_from_spaced false), spaced_weaken. }
  split; [|split; [done|split]].
  - rewrite <- Hcollapse at 1. by apply well_spaced_fixed.
  - by apply lower_from_fixed.
  - eapply Forall_impl; [exact Htidy|]. intros c [->|[(Hw & Hns & Hcc & _) _]]; [by left|].
    by right.
Qed.

End with_ucd.
End NormalizerMore.

(** ** The application *)

Module AppFacts.
Import PyStr KB KBSpec KBFacts App AppSpec.

Section strip.
Context `{UnicodeData}.

Lemma rstrip_step (c : N) (s : list N) :
  rstrip (c :: s) =
  match rstrip s with [] => if isspace c then [] else [c] | _ => c :: rstrip s end.
Proof. reflexivity. Qed.

Lemma rstrip_idempotent (s : list N) : rstrip (rstrip s) = rstrip s.
Proof.
  induction s as [|c s IH]; [done|]. rewrite rstrip_step.
  destruct (rstrip s) as [|d r] eqn:Hr.
  - destruct (isspace c) eqn:Hc; [done|]. rewrite rstrip_step. cbn [rstrip foldr].
    by rewrite Hc.
  - rewrite rstrip_step, IH. done.
Qed.

Lemma lstrip_head (s : list N) :
  lstrip s = [] \/ exists c s', lstrip s = c :: s' /\ isspace c = false.
Proof.
  induction s as [|c s IH]; [by left|]. cbn [lstrip].
  destruct (isspace c) eqn:Hc; [done|]. right. by exists c, s.
Qed.

(** [s.strip().strip() == s.strip()] *)
Lemma strip_idempotent (s : list N) : strip (strip s) = strip s.
Proof.
  unfold strip. destruct (lstrip_head s) as [->|(c & s' & -> & Hc)]; [done|].
  assert (lstrip (rstrip (c :: s')) = rstrip (c :: s')) as ->.
  { rewrite rstrip_step. destruct (rstrip s'); rewrite ?Hc; cbn [lstrip]; by rewrite Hc. }
  apply rstrip_idempotent.
Qed.
End strip.

Section with_ucd.
Context `{UnicodeData}.

Lemma keyword_answer_from_table (responses : gmap (list N) (list N))
    (question_lower : list N) (ks : list (list N)) (answer : list N) :
  keyword_answer responses question_lower ks = Some answer ->
  exists key, responses !! key = Some answer.
Proof.
  induction ks as [|k ks IH]; [done|]. cbn [keyword_answer].
  destruct (contains question_lower k); [|done]. cbv zeta.
  destruct (responses !! default k (keyword_map !! k)) as [a|] eqn:Ha; [|done].
  intros [= <-]. eauto.
Qed.

Lemma simple_tables_ok : table_ok simple_responses_en /\ table_ok simple_responses_hi.
Proof. split; (split; compute_done). Qed.

Lemma simple_answer_unfold (simple_responses : gmap (list N) (gmap (list N) (list N)))
    (question : list N) (language : Key) :
  is_Some (simple_responses !! py "en") ->
  _get_simple_answer simple_responses question language =
  let responses := responses_for simple_responses language in
  if existsb (contains (lower question)) greeting_words
  then fallback ← responses !! py "default";
       Some (default fallback (responses !! py "hello"))
  else if existsb (contains (lower question)) help_words
  then fallback ← responses !! py "default";
       Some (default fallback (responses !! py "help"))
  else match keyword_answer responses (lower question) keywords with
       | Some answer => Some answer
       | None => responses !! py "default"
       end.
Proof.
  intros [english Hen]. unfold _get_simple_answer, responses_for. rewrite Hen.
  reflexivity.
Qed.

(** The table read for a language: the Hindi one for ["hi"], the English
    one for anything else. *)
Lemma responses_for_hi : responses_for simple_responses (py "hi") = simple_responses_hi.
Proof. vm_compute. reflexivity. Qed.

Lemma responses_for_en (language : Key) :
  language <> Text (py "hi") ->
  responses_for simple_responses language = simple_responses_en.
Proof.
  intros Hne. unfold responses_for.
  change simple_responses
    with (<[py "en" := simple_responses_en]>
            (<[py "hi" := simple_responses_hi]>
               (∅ : gmap (list N) (gmap (list N) (list N))))).
  rewrite lookup_insert_eq. cbn [from_option id].
  destruct language as [s|]; [|rewrite lookup_NotText; reflexivity].
  rewrite lookup_Text, lookup_insert. destruct (decide (py "en" = s)); [reflexivity|].
  rewrite lookup_insert_ne by (intros Heq; apply Hne; rewrite Heq; reflexivity).
  rewrite lookup_empty. reflexivity.
Qed.

Lemma responses_for_cases (language : Key) :
  responses_for simple_responses language = simple_responses_en \/
  responses_for simple_responses language = simple_responses_hi.
Proof.
  destruct (decide (language = Text (py "hi"))) as [->|Hne].
  - right. exact responses_for_hi.
  - left. exact (responses_for_en language Hne).
Qed.

Lemma simple_answer_some (question : list N) (language : Key) :
  exists answer key,
    _get_simple_answer simple_responses question language = Some answer /\
    answer <> [] /\
    responses_for simple_responses language !! key = Some answer.
Proof.
  rewrite simple_answer_unfold by (eexists; reflexivity). cbv zeta.
  assert (table_ok (responses_for simple_responses language)) as [Htexts [d Hd]].
  { destruct simple_tables_ok as [Hok_en Hok_hi].
    destruct (responses_for_cases language) as [Hr|Hr]; rewrite Hr;
      [exact Hok_en|exact Hok_hi]. }
  remember (responses_for simple_responses language) as responses eqn:Hresp.
  assert (forall key answer, responses !! key = Some answer -> answer <> []) as Hne.
  { intros key answer Hk. exact (Htexts key answer Hk). }
  assert (forall key, exists answer k,
            Some (default d (responses !! key)) = Some answer /\ answer <> [] /\
            responses !! k = Some answer) as Hget.
  { intros key. destruct (responses !! key) as [a|] eqn:Ha; cbn [from_option id].
    - exists a, key. split; [reflexivity|]. split; [exact (Hne key a Ha)|exact Ha].
    - exists d, (py "default"). split; [reflexivity|].
      split; [exact (Hne _ d Hd)|exact Hd]. }
  rewrite Hd. cbn [mbind option_bind].
  destruct (existsb _ greeting_words).
  { destruct (Hget (py "hello")) as (a & k & Ha & Hna & Hk). exists a, k.
    split; [exact Ha|]. split; [exact Hna|exact Hk]. }
  destruct (existsb _ help_words).
  { destruct (Hget (py "help")) as (a & k & Ha & Hna & Hk). exists a, k.
    split; [exact Ha|]. split; [exact Hna|exact Hk]. }
  destruct (keyword_answer responses (lower question) keywords) as [a|] eqn:Hk.
  - destruct (keyword_answer_from_table _ _ _ _ Hk) as [k Hkey].
    exists a, k. split; [reflexivity|]. split; [exact (Hne k a Hkey)|exact Hkey].
  - exists d, (py "default"). split; [reflexivity|]. split; [exact (Hne _ d Hd)|exact Hd].
Qed.

(** X14. With the built-in table [_get_simple_answer] always answers: for
    every question and language it raises no [KeyError] and returns a
    text that is not empty and is one of the texts of the language's
    table, the English table serving every language but Hindi. *)
Theorem simple_answer_total (question language : list N) :
  exists answer key,
    _get_simple_answer simple_responses question language = Some answer /\
    answer <> [] /\
    responses_for simple_responses language !! key = Some answer /\
    (language <> py "hi" ->
     responses_for simple_responses language = simple_responses_en).
Proof.
  destruct (simple_answer_some question language) as (answer & key & Ha & Hna & Hk).
  exists answer, key. split; [exact Ha|]. split; [exact Hna|]. split; [exact Hk|].
  intros Hne. apply responses_for_en. intros [= Heq]. exact (Hne Heq).
Qed.

Lemma simple_tables_keys (language : Key) (key : list N) :
  key ∈ [py "hello"; py "help"; py "default"] ++
        map (fun k => default k (keyword_map !! k)) keywords ->
  is_Some (responses_for simple_responses language !! key).
Proof.
  intros Hkey.
  assert (forall table,
            table = simple_responses_en \/ table = simple_responses_hi ->
            Forall (fun k => is_Some (table !! k))
                   ([py "hello"; py "help"; py "default"] ++
                    map (fun k => default k (keyword_map !! k)) keywords)) as Hall.
  { intros table [->| ->]; compute_done. }
  specialize (Hall _ (responses_for_cases language)).
  rewrite Forall_forall in Hall. exact (Hall key Hkey).
Qed.

(** X15. In [_get_simple_answer] the greeting words are looked for first,
    as substrings of the lower-cased question: a question that holds
    "hello", "hi", "namaste" or their Hindi form anywhere, inside another
    word as well, gets the greeting of the language's table, whatever
    farming keyword it holds. *)
Theorem simple_answer_greeting_first (question language word : list N) :
  word ∈ greeting_words ->
  contains (lower question) word = true ->
  _get_simple_answer simple_responses question language =
    responses_for simple_responses language !! py "hello" /\
  is_Some (responses_for simple_responses language !! py "hello").
Proof.
  intros Hword Hin.
  assert (is_Some (responses_for simple_responses language !! py "hello")) as Hhello.
  { apply simple_tables_keys. compute_done. }
  assert (is_Some (responses_for simple_responses language !! py "default")) as Hdefault.
  { apply simple_tables_keys. compute_done. }
  split; [|exact Hhello].
  rewrite simple_answer_unfold by (eexists; reflexivity). cbv zeta.
  assert (existsb (contains (lower question)) greeting_words = true) as ->.
  { apply existsb_exists. exists word. split; [apply list_elem_of_In; exact Hword|exact Hin]. }
  destruct Hhello as [h Hh]. destruct Hdefault as [d Hd].
  rewrite Hd, Hh. reflexivity.
Qed.

Lemma keyword_answer_skip (responses : gmap (list N) (list N)) (question_lower : list N)
    (before rest : list (list N)) :
  Forall (fun k => contains question_lower k = false) before ->
  keyword_answer responses question_lower (before ++ rest) =
  keyword_answer responses question_lower rest.
Proof.
  induction 1 as [|k before Hk _ IH]; [reflexivity|].
  cbn [app keyword_answer]. rewrite Hk. exact IH.
Qed.

(** X16. Past the greeting and help words, it is the order of the fixed
    keyword list that decides, not the order of the words in the
    question: the first keyword of the list that the lower-cased question
    holds selects the answer, a Hindi keyword selecting the text of its
    English counterpart. *)
Theorem simple_answer_keyword_order (question language : list N)
    (before after : list (list N)) (keyword : list N) :
  existsb (contains (lower question)) greeting_words = false ->
  existsb (contains (lower question)) help_words = false ->
  keywords = before ++ keyword :: after ->
  Forall (fun k => contains (lower question) k = false) before ->
  contains (lower question) keyword = true ->
  _get_simple_answer simple_responses question language =
    responses_for simple_responses language !! default keyword (keyword_map !! keyword) /\
  is_Some (responses_for simple_responses language !! default keyword (keyword_map !! keyword)).
Proof.
  intros Hg Hh Hkeys Hbefore Hin.
  assert (is_Some (responses_for simple_responses language
                     !! default keyword (keyword_map !! keyword))) as Hkey.
  { apply simple_tables_keys. apply elem_of_app. right.
    apply list_elem_of_In, in_map_iff. exists keyword. split; [reflexivity|].
    rewrite Hkeys. apply in_or_app. right. left. reflexivity. }
  split; [|exact Hkey].
  rewrite simple_answer_unfold by (eexists; reflexivity). cbv zeta.
  rewrite Hg, Hh, Hkeys, keyword_answer_skip by exact Hbefore.
  cbn [keyword_answer]. rewrite Hin. cbv zeta.
  destruct Hkey as [a Ha]. rewrite Ha. reflexivity.
Qed.

End with_ucd.

(** *** The route *)

Section with_database.
Context `{UnicodeData}.
Context {DB Time : Type}.
Variable log_interaction : DB -> list N -> list N -> list N -> Json -> DB.

Lemma question_not_language : py "question" <> py "language".
Proof. compute_done. Qed.


(** X18. White space around the question does not matter to [/api/ask]:
    the result for a body whose question is missing or a text is the
    result for the body with its question stripped, echo and log
    included. *)
Theorem ask_question_trims (now : Time) (fields : gmap (list N) Json) (q : list N)
    (self : FarmAdvisor) :
  body_question fields = JString q ->
  ask_question log_interaction now (Some (JObject fields)) self =
  ask_question log_interaction now
    (Some (JObject (<[py "question" := JString (strip q)]> fields))) self.
Proof.
  unfold body_question. intros Hq. unfold ask_question.
  rewrite Hq, lookup_insert_eq, (lookup_insert_ne _ _ _ _ question_not_language).
  cbn [from_option id]. rewrite strip_idempotent. reflexivity.
Qed.

(** X19. [/api/ask] without the models, for a body whose question is a
    text that is not blank.  When the language can be hashed the status is
    200, with the answer of [_get_simple_answer] for the stripped
    question, a text that is not empty: the built-in table never makes the
    route fail.  When it cannot (a list, an object) the status is 500.
    The advisor is left as it was. *)
Theorem ask_question_without_models (now : Time) (fields : gmap (list N) Json)
    (q : list N) :
  body_question fields = JString q ->
  strip q <> [] ->
  let self := WithoutModels simple_responses in
  let result := ask_question log_interaction now (Some (JObject fields)) self in
  match hashable (body_language fields) with
  | Some key =>
    exists answer,
      result = (Answered (strip q) answer (body_language fields) now, self) /\
      _get_simple_answer simple_responses (strip q) key = Some answer /\
      answer <> []
  | None => result = (FailedToProcess, self)
  end.
Proof.
  intros Hq Hne self result. unfold body_question in Hq.
  unfold result, self, ask_question.
  rewrite Hq. cbv zeta. fold (body_language fields).
  destruct (strip q) as [|c rest]; [exfalso; apply Hne; reflexivity|].
  destruct (hashable (body_language fields)) as [key|]; [|reflexivity].
  destruct (simple_answer_some (c :: rest) key) as (answer & k & Ha & Hna & _).
  exists answer. rewrite Ha. split; [reflexivity|]. split; [reflexivity|exact Hna].
Qed.

End with_database.
End AppFacts.

(** ** The constructed object as a whole *)

Module KBInit.
Import PyStr Normalizer KB KBSpec KBSpecMore KBFacts.

Section with_ucd.
Context `{UnicodeData}.

Lemma execM_build_search_index (self : KnowledgeBase) :
  execM build_search_index self =
  {| data := data self; categories := categories self;
     keywords_index := index_of_postings (postings (categories_items (data self))) ∅ |}.
Proof.
  unfold execM, build_search_index, mbind, KBM_bind, set_keywords_index,
    get_self, categories_items. simpl.
  destruct (d_categories (data self)) as [items|]; simpl; [|done].
  by rewrite index_items_postings.
Qed.

(** What [__init__] leaves in [data] and [categories]. *)
Lemma init_fields (src : Source) :
  let d := match src with
           | FileParsed d => d
           | FileAbsent => default_data
           | FileError => empty_data
           end in
  data (KnowledgeBase_init src) = d /\
  categories (KnowledgeBase_init src) = map fst (categories_items d).
Proof.
  destruct src as [d| |]; unfold KnowledgeBase_init; cbv zeta.
  - change (execM (_ ≫= _) blank) with
      (execM build_search_index
         {| data := d; categories := map fst (categories_items d);
            keywords_index := ∅ |}).
    rewrite execM_build_search_index. split; reflexivity.
  - change (execM (_ ≫= _) blank) with
      (execM build_search_index
         {| data := default_data; categories := map fst (categories_items default_data);
            keywords_index := ∅ |}).
    rewrite execM_build_search_index. split; reflexivity.
  - change (execM (_ ≫= _) blank) with
      (execM build_search_index
         {| data := empty_data; categories := []; keywords_index := ∅ |}).
    rewrite execM_build_search_index. split; reflexivity.
Qed.

(** X20. The attributes of a constructed object agree.  [categories] lists
    the identifiers [get_categories] reports, in the same order, and each
    reported count is the number of entries of its category.  An object
    for which [is_loaded] is false has no category, an empty index, and
    [search_entries] finds nothing in it for any question and language. *)
Theorem constructed_object_agrees (src : Source) :
  let self := KnowledgeBase_init src in
  categories self = map (fun c => c.1.1) (evalM get_categories self) /\
  map (fun c => c.2) (evalM get_categories self) =
    map (fun item : str * Category => length (c_entries item.2))
        (categories_items (data self)) /\
  (evalM is_loaded self = false ->
   categories self = [] /\
   evalM get_categories self = [] /\
   keywords_index self = ∅ /\
   forall question language, evalM (search_entries question language) self = []).
Proof.
  intros self. destruct (init_fields src) as [Hdata Hcats]. cbv zeta in Hdata, Hcats.
  fold self in Hdata, Hcats.
  assert (evalM get_categories self =
          map (fun item : str * Category =>
                 (item.1, c_name item.2, length (c_entries item.2)))
              (categories_items (data self))) as Hget by reflexivity.
  assert (categories self = map fst (categories_items (data self))) as Hc.
  { rewrite Hcats, Hdata. reflexivity. }
  split; [|split].
  - rewrite Hget, Hc, map_map. reflexivity.
  - rewrite Hget, map_map. reflexivity.
  - intros Hloaded.
    assert (d_categories (data self) = None) as Hnone.
    { unfold evalM, is_loaded, mbind, KBM_bind, get_self, mret, KBM_ret in Hloaded.
      cbn [fst snd] in Hloaded. apply bool_decide_eq_false_1 in Hloaded.
      destruct (d_categories (data self)); [|reflexivity].
      exfalso. apply Hloaded. eexists. reflexivity. }
    assert (categories_items (data self) = []) as Hitems.
    { unfold categories_items. rewrite Hnone. reflexivity. }
    assert (keywords_index self = ∅) as Hidx.
    { unfold self. rewrite init_keywords_index. fold self. rewrite Hitems. reflexivity. }
    split; [rewrite Hc, Hitems; reflexivity|].
    split; [rewrite Hget, Hitems; reflexivity|].
    split; [exact Hidx|].
    intros question language.
    rewrite evalM_search_entries, Hidx.
    assert (forall ws, keyword_matches (∅ : gmap str (list Hit)) ws = []) as Hk.
    { intros ws. unfold keyword_matches.
      change (fold_left ?f ws []) with (keyword_loop (∅ : gmap str (list Hit)) ws []).
      apply KBMore.keyword_loop_unindexed. apply Forall_forall. intros w _.
      apply lookup_empty. }
    rewrite Hk, evalM_search_by_patterns.
    unfold category_pattern_hits. rewrite Hitems. reflexivity.
Qed.


End with_ucd.
End KBInit.

(** ** Further runs on the built-in knowledge base and the built-in table *)

Module RunsMore.
Import PyStr Normalizer NormalForm KB KBSpec KBSpecMore Scenarios Fragment App AppSpec.
#[local] Existing Instance ucd_fragment.

Ltac run := vm_compute; reflexivity.
Ltac run_ne := apply Runs.text_ne; vm_compute; reflexivity.

(** "Which soil test?" holds "hi" inside "which": it is greeted. *)
Lemma greeting_trigger_wins_witness :
  strip (py "Which soil test?") <> [] /\
  py "hi" ∈ trigger_phrases (data default_kb) (py "greetings") (py "en") /\
  normalize_text (py "Which soil test?") =
    py "w" ++ normalize_text (py "hi") ++ py "ch soil test" /\
  evalM (get_answer (py "Which soil test?") (py "en")) default_kb =
    Some (evalM (get_response (py "greetings") (py "en")) default_kb).
Proof.
  assert (strip (py "Which soil test?") <> []) as Hraw by run_ne.
  assert (py "hi" ∈ trigger_phrases (data default_kb) (py "greetings") (py "en")) as Hin
    by compute_done.
  assert (normalize_text (py "Which soil test?") =
          py "w" ++ normalize_text (py "hi") ++ py "ch soil test") as Htext by run.
  split; [exact Hraw|]. split; [exact Hin|]. split; [exact Htext|].
  exact (KBMore.greeting_trigger_wins default_kb (py "Which soil test?") (py "en")
           (py "hi") (py "w") (py "ch soil test") Hraw Hin Htext).
Defined.

Lemma help_trigger_wins_witness :
  strip (py "I need assistance with rice") <> [] /\
  evalM (is_greeting (normalize_text (py "I need assistance with rice")) (py "en"))
    default_kb = false /\
  py "assistance" ∈ trigger_phrases (data default_kb) (py "help") (py "en") /\
  normalize_text (py "I need assistance with rice") =
    py "i need " ++ normalize_text (py "assistance") ++ py " with rice" /\
  evalM (get_answer (py "I need assistance with rice") (py "en")) default_kb =
    Some (evalM (get_response (py "help") (py "en")) default_kb).
Proof.
  assert (strip (py "I need assistance with rice") <> []) as Hraw by run_ne.
  assert (evalM (is_greeting (normalize_text (py "I need assistance with rice")) (py "en"))
            default_kb = false) as Hg by run.
  assert (py "assistance" ∈ trigger_phrases (data default_kb) (py "help") (py "en")) as Hin
    by compute_done.
  assert (normalize_text (py "I need assistance with rice") =
          py "i need " ++ normalize_text (py "assistance") ++ py " with rice") as Htext
    by run.
  split; [exact Hraw|]. split; [exact Hg|]. split; [exact Hin|]. split; [exact Htext|].
  exact (KBMore.help_trigger_wins default_kb (py "I need assistance with rice") (py "en")
           (py "assistance") (py "i need ") (py " with rice") Hraw Hg Hin Htext).
Defined.

Lemma answer_by_normalized_text_witness :
  strip (py " Soil-pH: NITROGEN?") <> [] /\
  strip (py "soil ph nitrogen") <> [] /\
  normalize_text (py " Soil-pH: NITROGEN?") = normalize_text (py "soil ph nitrogen") /\
  evalM (get_answer (py " Soil-pH: NITROGEN?") (py "en")) default_kb =
    evalM (get_answer (py "soil ph nitrogen") (py "en")) default_kb.
Proof.
  assert (strip (py " Soil-pH: NITROGEN?") <> []) as Hq by run_ne.
  assert (strip (py "soil ph nitrogen") <> []) as Ho by run_ne.
  assert (normalize_text (py " Soil-pH: NITROGEN?") = normalize_text (py "soil ph nitrogen"))
    as Hnorm by run.
  split; [exact Hq|]. split; [exact Ho|]. split; [exact Hnorm|].
  exact (KBMore.answer_by_normalized_text default_kb (py " Soil-pH: NITROGEN?")
           (py "soil ph nitrogen") (py "en") Hq Ho Hnorm).
Defined.

(** "Sow rice or wheat?": "sow" is not indexed, "rice" is; the later
    "wheat" plays no part. *)
Lemma first_indexed_word_decides_witness :
  strip (py "Sow rice or wheat?") <> [] /\
  evalM (is_greeting (normalize_text (py "Sow rice or wheat?")) (py "en")) default_kb
    = false /\
  evalM (is_help_request (normalize_text (py "Sow rice or wheat?")) (py "en")) default_kb
    = false /\
  split (normalize_text (py "Sow rice or wheat?")) =
    [py "sow"] ++ py "rice" :: [py "or"; py "wheat"] /\
  Forall (fun w => keywords_index default_kb !! w = None) [py "sow"] /\
  keywords_index default_kb !! py "rice" =
    Some (keyword_hit (py "crop_planning") entry_rice_planting_time :: []) /\
  evalM (get_answer (py "Sow rice or wheat?") (py "en")) default_kb =
    answer_text (entry (keyword_hit (py "crop_planning") entry_rice_planting_time))
      (py "en").
Proof.
  assert (strip (py "Sow rice or wheat?") <> []) as Hraw by run_ne.
  assert (evalM (is_greeting (normalize_text (py "Sow rice or wheat?")) (py "en"))
            default_kb = false) as Hg by run.
  assert (evalM (is_help_request (normalize_text (py "Sow rice or wheat?")) (py "en"))
            default_kb = false) as Hh by run.
  assert (split (normalize_text (py "Sow rice or wheat?")) =
          [py "sow"] ++ py "rice" :: [py "or"; py "wheat"]) as Hwords by run.
  assert (Forall (fun w => keywords_index default_kb !! w = None) [py "sow"]) as Hbefore.
  { constructor; [run|constructor]. }
  assert (keywords_index default_kb !! py "rice" =
          Some (keyword_hit (py "crop_planning") entry_rice_planting_time :: [])) as Hword
    by run.
  split; [exact Hraw|]. split; [exact Hg|]. split; [exact Hh|]. split; [exact Hwords|].
  split; [exact Hbefore|]. split; [exact Hword|].
  exact (KBMore.first_indexed_word_decides default_kb (py "Sow rice or wheat?") (py "en")
           [py "sow"] [py "or"; py "wheat"] (py "rice")
           (keyword_hit (py "crop_planning") entry_rice_planting_time) []
           Hraw Hg Hh Hwords Hbefore Hword).
Defined.

(** "soil testing methods": the first phrase, "when to plant rice", stays
    below the threshold, the second, "rice planting season", exceeds it. *)
Lemma fuzzy_pass_answers_first_above_witness :
  strip (py "soil testing methods") <> [] /\
  evalM (is_greeting (normalize_text (py "soil testing methods")) (py "en")) default_kb
    = false /\
  evalM (is_help_request (normalize_text (py "soil testing methods")) (py "en")) default_kb
    = false /\
  keyword_matches (keywords_index default_kb)
    (split (normalize_text (py "soil testing methods"))) = [] /\
  phrases (data default_kb) (py "en") =
    [(py "crop_planning", entry_rice_planting_time, py "when to plant rice")] ++
    (py "crop_planning", entry_rice_planting_time, py "rice planting season") ::
    drop 2 (phrases (data default_kb) (py "en")) /\
  Forall (fun t => (Difflib.ratio (normalize_text (py "soil testing methods"))
                      (normalize_text t.2) <= threshold)%Q)
         [(py "crop_planning", entry_rice_planting_time, py "when to plant rice")] /\
  (threshold < Difflib.ratio (normalize_text (py "soil testing methods"))
                 (normalize_text (py "rice planting season")))%Q /\
  evalM (get_answer (py "soil testing methods") (py "en")) default_kb =
    answer_text entry_rice_planting_time (py "en").
Proof.
  assert (strip (py "soil testing methods") <> []) as Hraw by run_ne.
  assert (evalM (is_greeting (normalize_text (py "soil testing methods")) (py "en"))
            default_kb = false) as Hg by run.
  assert (evalM (is_help_request (normalize_text (py "soil testing methods")) (py "en"))
            default_kb = false) as Hh by run.
  assert (keyword_matches (keywords_index default_kb)
            (split (normalize_text (py "soil testing methods"))) = []) as Hk by run.
  assert (phrases (data default_kb) (py "en") =
          [(py "crop_planning", entry_rice_planting_time, py "when to plant rice")] ++
          (py "crop_planning", entry_rice_planting_time, py "rice planting season") ::
          drop 2 (phrases (data default_kb) (py "en"))) as Hphrases by run.
  assert (Forall (fun t => (Difflib.ratio (normalize_text (py "soil testing methods"))
                              (normalize_text t.2) <= threshold)%Q)
                 [(py "crop_planning", entry_rice_planting_time, py "when to plant rice")])
    as Hbefore.
  { constructor; [|constructor]. apply Qle_bool_imp_le. run. }
  assert (threshold < Difflib.ratio (normalize_text (py "soil testing methods"))
                        (normalize_text (py "rice planting season")))%Q as Hsim by run.
  split; [exact Hraw|]. split; [exact Hg|]. split; [exact Hh|]. split; [exact Hk|].
  split; [exact Hphrases|]. split; [exact Hbefore|]. split; [exact Hsim|].
  exact (KBMore.fuzzy_pass_answers_first_above default_kb (py "soil testing methods")
           (py "en")
           [(py "crop_planning", entry_rice_planting_time, py "when to plant rice")]
           (drop 2 (phrases (data default_kb) (py "en")))
           (py "crop_planning") entry_rice_planting_time (py "rice planting season")
           Hraw Hg Hh Hk Hphrases Hbefore Hsim).
Defined.

(** The code "fr" on the built-in data: "wheat" is answered as in English,
    "how to test soil", a stored English phrase, is not found. *)
Lemma unknown_language_answers_witness :
  language_unknown (data (KnowledgeBase_init FileAbsent)) (py "fr") /\
  strip (py "how to test soil") <> [] /\
  evalM (get_answer (py "how to test soil") (py "fr")) (KnowledgeBase_init FileAbsent) =
    Some (evalM (get_response (py "not_found") (py "en")) (KnowledgeBase_init FileAbsent)).
Proof.
  assert (language_unknown (data (KnowledgeBase_init FileAbsent)) (py "fr")) as Hunknown.
  { unfold language_unknown. split; [compute_done|]. split; compute_done. }
  assert (strip (py "how to test soil") <> []) as Hraw by run_ne.
  split; [exact Hunknown|]. split; [exact Hraw|].
  apply (proj2 (KBMore.unknown_language_answers FileAbsent (py "how to test soil") (py "fr")
                  Hunknown Hraw)); run.
Defined.

Lemma stored_phrase_is_found_witness :
  (py "soil_management", category_soil_management) ∈ categories_items (data default_kb) /\
  entry_soil_testing ∈ c_entries category_soil_management /\
  py "soil testing methods" ∈ default [] (e_question entry_soil_testing !! py "en") /\
  (length (normalize_text (py "soil testing methods")) < 200)%nat /\
  exists sim,
    {| category := py "soil_management"; entry_id := e_id entry_soil_testing;
       entry := entry_soil_testing; similarity := Some sim |}
      ∈ evalM (search_by_patterns (normalize_text (py "soil testing methods")) (py "en"))
          default_kb /\
    (sim == 1)%Q.
Proof.
  assert ((py "soil_management", category_soil_management)
            ∈ categories_items (data default_kb)) as Hitem
    by (apply (list_elem_of_lookup_2 _ 1%nat); run).
  assert (entry_soil_testing ∈ c_entries (py "soil_management", category_soil_management).2)
    as He by (apply (list_elem_of_lookup_2 _ 0%nat); run).
  assert (py "soil testing methods" ∈ default [] (e_question entry_soil_testing !! py "en"))
    as Hp by compute_done.
  assert (length (normalize_text (py "soil testing methods")) < 200)%nat as Hshort
    by (vm_compute; lia).
  split; [exact Hitem|]. split; [exact He|]. split; [exact Hp|]. split; [exact Hshort|].
  exact (proj1 (KBPhrase.stored_phrase_is_found default_kb
                  (py "soil_management", category_soil_management) entry_soil_testing
                  (py "soil testing methods") (py "en") Hitem He Hp Hshort)).
Defined.

Lemma normalize_text_ignores_marks_witness :
  strip_combining (flat_map decomposition (py "café crème")) =
    strip_combining (flat_map decomposition (py "cafe creme")) /\
  normalize_text (py "café crème") = normalize_text (py "cafe creme").
Proof.
  assert (strip_combining (flat_map decomposition (py "café crème")) =
          strip_combining (flat_map decomposition (py "cafe creme"))) as Hsame by run.
  split; [exact Hsame|].
  exact (NormalizerMore.normalize_text_ignores_marks (py "café crème") (py "cafe creme")
           Hsame).
Defined.

Lemma normalize_text_normal_form_witness :
  ucd_consistent /\
  strip (normalize_text (py "  Café,  RICE! ")) = normalize_text (py "  Café,  RICE! ") /\
  lower (normalize_text (py "  Café,  RICE! ")) = normalize_text (py "  Café,  RICE! ").
Proof.
  split; [exact FragmentFacts.fragment_consistent|].
  destruct (NormalizerMore.normalize_text_normal_form (py "  Café,  RICE! ")
              FragmentFacts.fragment_consistent) as (Hstrip & _ & Hlower & _).
  split; [exact Hstrip|exact Hlower].
Defined.

(** "Which fertilizer for rice?" holds "hi": it is greeted. *)
Lemma simple_answer_greeting_first_witness :
  py "hi" ∈ greeting_words /\
  contains (lower (py "Which fertilizer for rice?")) (py "hi") = true /\
  _get_simple_answer simple_responses (py "Which fertilizer for rice?") (py "en") =
    responses_for simple_responses (py "en") !! py "hello".
Proof.
  assert (py "hi" ∈ greeting_words) as Hword by compute_done.
  assert (contains (lower (py "Which fertilizer for rice?")) (py "hi") = true) as Hin by run.
  split; [exact Hword|]. split; [exact Hin|].
  exact (proj1 (AppFacts.simple_answer_greeting_first (py "Which fertilizer for rice?")
                  (py "en") (py "hi") Hword Hin)).
Defined.

(** "Pest control for wheat": "wheat" comes before "pest" in the list. *)
Lemma simple_answer_keyword_order_witness :
  existsb (contains (lower (py "Pest control for wheat"))) greeting_words = false /\
  existsb (contains (lower (py "Pest control for wheat"))) help_words = false /\
  keywords = [py "rice"] ++ py "wheat" :: drop 2 keywords /\
  Forall (fun k => contains (lower (py "Pest control for wheat")) k = false) [py "rice"] /\
  contains (lower (py "Pest control for wheat")) (py "wheat") = true /\
  _get_simple_answer simple_responses (py "Pest control for wheat") (py "en") =
    responses_for simple_responses (py "en")
      !! default (py "wheat") (keyword_map !! py "wheat").
Proof.
  assert (existsb (contains (lower (py "Pest control for wheat"))) greeting_words = false)
    as Hg by run.
  assert (existsb (contains (lower (py "Pest control for wheat"))) help_words = false)
    as Hh by run.
  assert (keywords = [py "rice"] ++ py "wheat" :: drop 2 keywords) as Hkeys by run.
  assert (Forall (fun k => contains (lower (py "Pest control for wheat")) k = false)
                 [py "rice"]) as Hbefore.
  { constructor; [run|constructor]. }
  assert (contains (lower (py "Pest control for wheat")) (py "wheat") = true) as Hin by run.
  split; [exact Hg|]. split; [exact Hh|]. split; [exact Hkeys|]. split; [exact Hbefore|].
  split; [exact Hin|].
  exact (proj1 (AppFacts.simple_answer_keyword_order (py "Pest control for wheat") (py "en")
                  [py "rice"] (drop 2 keywords) (py "wheat") Hg Hh Hkeys Hbefore Hin)).
Defined.


(** A body [{"question": "  rice  "}] is the body [{"question": "rice"}]. *)
Lemma ask_question_trims_witness :
  body_question {[ py "question" := JString (py "  rice  ") ]} = JString (py "  rice  ") /\
  ask_question (fun (db : list (list N)) question _ _ _ => question :: db) 0%nat
    (Some (JObject {[ py "question" := JString (py "  rice  ") ]}))
    (WithModels default_kb []) =
  ask_question (fun (db : list (list N)) question _ _ _ => question :: db) 0%nat
    (Some (JObject (<[py "question" := JString (strip (py "  rice  "))]>
                      {[ py "question" := JString (py "  rice  ") ]})))
    (WithModels default_kb []).
Proof.
  assert (body_question {[ py "question" := JString (py "  rice  ") ]}
          = JString (py "  rice  ")) as Hq by reflexivity.
  split; [exact Hq|].
  exact (AppFacts.ask_question_trims
           (fun (db : list (list N)) question _ _ _ => question :: db) 0%nat
           {[ py "question" := JString (py "  rice  ") ]} (py "  rice  ")
           (WithModels default_kb []) Hq).
Defined.

(** The route without the models, for the body
    [{"question": "  rice  ", "language": null}]: [None] can be hashed and
    is the key of no table, the English text is answered. *)
Lemma ask_question_without_models_witness :
  body_question {[ py "question" := JString (py "  rice  "); py "language" := JNull ]}
    = JString (py "  rice  ") /\
  strip (py "  rice  ") <> [] /\
  exists answer,
    ask_question (fun (db : unit) _ _ _ _ => db) 0%nat
      (Some (JObject {[ py "question" := JString (py "  rice  ");
                        py "language" := JNull ]}))
      (WithoutModels simple_responses) =
      (Answered (strip (py "  rice  ")) answer JNull 0%nat,
       WithoutModels simple_responses) /\
    answer <> [].
Proof.
  assert (body_question {[ py "question" := JString (py "  rice  ");
                           py "language" := JNull ]}
          = JString (py "  rice  ")) as Hq by run.
  assert (strip (py "  rice  ") <> []) as Hne by run_ne.
  split; [exact Hq|]. split; [exact Hne|].
  pose proof (AppFacts.ask_question_without_models (fun (db : unit) _ _ _ _ => db) 0%nat
                {[ py "question" := JString (py "  rice  "); py "language" := JNull ]}
                (py "  rice  ") Hq Hne) as Hask.
  cbv zeta in Hask.
  replace (body_language {[ py "question" := JString (py "  rice  ");
                            py "language" := JNull ]})
    with JNull in Hask by run.
  cbn [hashable] in Hask. destruct Hask as (answer & Hask & _ & Hna).
  exists answer. split; [exact Hask|exact Hna].
Defined.

End RunsMore.
